(** * Comparador de Datos: the normalizer and the matcher of [streamlit_app.py]

    The development embeds the cell normalisation ([normalize_value],
    [normalize_column]), the accent stripping ([remove_accents]), the
    first-wins deduplication ([get_unique_records]) and the comparison that
    [main] runs when the button is pressed, and states the properties of the
    specification over them.

    Python text is a sequence of Unicode code points; a cell of a data frame
    is [None], a [str], an [int] or a [float]; a data frame is a header of
    labelled, typed columns over a list of rows. *)

From Stdlib Require Import String Ascii.
From Stdlib Require Import List ZArith NArith Bool Lia Decimal SpecFloat Permutation.
Import ListNotations.
Local Open Scope Z_scope.

(** ** Text *)

Module Text.

(** A Python [str]: the list of its code points. *)
Definition ustring := list N.

(** The text of an ASCII literal. *)
Definition u (s : string) : ustring := map N_of_ascii (list_ascii_of_string s).

Definition eqb (a b : ustring) : bool :=
  if list_eq_dec N.eq_dec a b then true else false.

Definition is_ascii (c : N) : bool := (c <? 128)%N.

(** The ten characters 0-9. *)
Definition is_ascii_digit (c : N) : bool := ((48 <=? c) && (c <=? 57))%N.

(** [len(s)] *)
Definition len (s : ustring) : Z := Z.of_nat (length s).

(** [s[n:]] for [n > 0] *)
Definition slice_from (n : Z) (s : ustring) : ustring := skipn (Z.to_nat n) s.

(** [s[:-n]] for [0 < n < len(s)] *)
Definition slice_until_last (n : Z) (s : ustring) : ustring :=
  firstn (Z.to_nat (len s - n)) s.

Fixpoint digits_of_uint (d : uint) : ustring :=
  match d with
  | Nil => []
  | D0 d => 48 :: digits_of_uint d
  | D1 d => 49 :: digits_of_uint d
  | D2 d => 50 :: digits_of_uint d
  | D3 d => 51 :: digits_of_uint d
  | D4 d => 52 :: digits_of_uint d
  | D5 d => 53 :: digits_of_uint d
  | D6 d => 54 :: digits_of_uint d
  | D7 d => 55 :: digits_of_uint d
  | D8 d => 56 :: digits_of_uint d
  | D9 d => 57 :: digits_of_uint d
  end%N.

(** [str(n)] for an [int]: the decimal digits, after a minus sign (code
    point 45) when [n] is negative. *)
Definition str_of_int (n : Z) : ustring :=
  match Z.to_int n with
  | Pos d => digits_of_uint d
  | Neg d => 45%N :: digits_of_uint d
  end.

(** [s.encode('ASCII', 'ignore')]: the code points below 128, one byte each;
    the others are skipped. *)
Definition encode_ascii_ignore (s : ustring) : list Byte.byte :=
  flat_map (fun c => if is_ascii c
                     then match Byte.of_N c with Some b => [b] | None => [] end
                     else []) s.

(** [b.decode('ASCII')]: fails (UnicodeDecodeError) on a byte above 127. *)
Fixpoint decode_ascii (b : list Byte.byte) : option ustring :=
  match b with
  | [] => Some []
  | x :: b' =>
      if is_ascii (Byte.to_N x)
      then match decode_ascii b' with
           | Some s => Some (Byte.to_N x :: s)
           | None => None
           end
      else None
  end.

End Text.

Import Text.

(** ** Cell values *)

(** A scalar held by a data frame cell. [VFloat] carries an IEEE 754 value;
    NaN is pandas' missing number. *)
Inductive value : Type :=
| VNone
| VStr (s : ustring)
| VInt (n : Z)
| VFloat (f : spec_float).

(** [pd.isna(value)] *)
Definition isna (v : value) : bool :=
  match v with
  | VNone => true
  | VFloat S754_nan => true
  | _ => false
  end.

(** [value.is_integer()] on a float *)
Definition is_integer (f : spec_float) : bool :=
  match f with
  | S754_zero _ => true
  | S754_finite _ m e =>
      if 0 <=? e then true else Z.pos m mod 2 ^ (- e) =? 0
  | S754_infinity _ | S754_nan => false
  end.

(** [int(value)] on a float: truncation towards zero; [None] stands for the
    OverflowError on an infinity and the ValueError on NaN. *)
Definition int_of_float (f : spec_float) : option Z :=
  match f with
  | S754_zero _ => Some 0
  | S754_finite s m e =>
      let a := if 0 <=? e then Z.pos m * 2 ^ e else Z.pos m / 2 ^ (- e) in
      Some (if s then - a else a)
  | S754_infinity _ | S754_nan => None
  end.

(** The float is a binary64 number, as Python's are. *)
Definition is_binary64 (f : spec_float) : bool := valid_binary 53 1024 f.

(** [float(n)] on an int: the nearest binary64 number, ties to even; [None]
    is the OverflowError of an int too large for a float, one that would
    round to 2^1024 or beyond. *)
Definition float_of_int (n : Z) : option spec_float :=
  if Z.abs n <? 2 ^ 1024 - 2 ^ 970
  then Some (binary_normalize 53 1024 n 0 false)
  else None.

(** What pandas' hash tables compare when they look for duplicates and join
    keys: numbers by their value (1 and 1.0 are one key, as are 0.0 and -0.0),
    NaN equal to NaN, text by its characters. A non-zero finite number is kept
    as sign, odd mantissa and binary exponent. *)
Inductive hkey : Type :=
| KNone
| KNaN
| KInf (neg : bool)
| KZero
| KNum (neg : bool) (m : positive) (e : Z)
| KStr (s : ustring).

Fixpoint odd_part (m : positive) (e : Z) : positive * Z :=
  match m with
  | xO p => odd_part p (e + 1)
  | _ => (m, e)
  end.

Definition hash_key (v : value) : hkey :=
  match v with
  | VNone => KNone
  | VStr s => KStr s
  | VInt 0 => KZero
  | VInt (Z.pos p) => let '(m, e) := odd_part p 0 in KNum false m e
  | VInt (Z.neg p) => let '(m, e) := odd_part p 0 in KNum true m e
  | VFloat (S754_zero _) => KZero
  | VFloat (S754_infinity s) => KInf s
  | VFloat S754_nan => KNaN
  | VFloat (S754_finite s m e) => let '(m', e') := odd_part m e in KNum s m' e'
  end.

Definition hkey_eq_dec (a b : hkey) : {a = b} + {a <> b}.
Proof.
  decide equality;
    first [ apply Bool.bool_dec | apply Pos.eq_dec | apply Z.eq_dec
          | apply (list_eq_dec N.eq_dec) ].
Defined.

Definition hkey_eqb (a b : hkey) : bool := if hkey_eq_dec a b then true else false.

(** ** The Python runtime the program calls into

    Three library functions decide what the program returns and are not part
    of the repository: the Unicode digit test [str.isdigit],
    [unicodedata.normalize('NFKD', _)] and the [repr] of a finite non-zero
    float. The program is embedded over them; [Reference] below gives the
    values CPython 3.11 (Unicode 14.0) computes, for the examples. *)

Module Reference.

(** The code points on which [str.isdigit] holds (Unicode 14.0), as
    inclusive ranges. *)
Definition digit_ranges : list (N * N) := [
  (48, 57); (178, 179); (185, 185); (1632, 1641); (1776, 1785); (1984, 1993);
  (2406, 2415); (2534, 2543); (2662, 2671); (2790, 2799); (2918, 2927); (3046, 3055);
  (3174, 3183); (3302, 3311); (3430, 3439); (3558, 3567); (3664, 3673); (3792, 3801);
  (3872, 3881); (4160, 4169); (4240, 4249); (4969, 4977); (6112, 6121); (6160, 6169);
  (6470, 6479); (6608, 6618); (6784, 6793); (6800, 6809); (6992, 7001); (7088, 7097);
  (7232, 7241); (7248, 7257); (8304, 8304); (8308, 8313); (8320, 8329); (9312, 9320);
  (9332, 9340); (9352, 9360); (9450, 9450); (9461, 9469); (9471, 9471); (10102, 10110);
  (10112, 10120); (10122, 10130); (42528, 42537); (43216, 43225); (43264, 43273);
  (43472, 43481); (43504, 43513); (43600, 43609); (44016, 44025); (65296, 65305);
  (66720, 66729); (68160, 68163); (68912, 68921); (69216, 69224); (69714, 69722);
  (69734, 69743); (69872, 69881); (69942, 69951); (70096, 70105); (70384, 70393);
  (70736, 70745); (70864, 70873); (71248, 71257); (71360, 71369); (71472, 71481);
  (71904, 71913); (72016, 72025); (72784, 72793); (73040, 73049); (73120, 73129);
  (92768, 92777); (92864, 92873); (93008, 93017); (120782, 120831); (123200, 123209);
  (123632, 123641); (125264, 125273); (127232, 127242); (130032, 130041)
]%N.

Definition isdigit (c : N) : bool :=
  existsb (fun r => (fst r <=? c) && (c <=? snd r))%N digit_ranges.

(** The compatibility decomposition of the code points up to U+00FF
    (UnicodeData.txt, fully expanded). Code points above U+00FF are left as
    they are: the table is exact for Latin-1 text only, which is all the
    examples use. *)
Definition decomposition (c : N) : ustring :=
  let grave := 768%N in let acute := 769%N in let circ := 770%N in
  let tilde := 771%N in let diaer := 776%N in let ring := 778%N in
  let cedil := 807%N in
  match c with
  | 160 => [32] | 168 => [32; diaer] | 170 => [97] | 175 => [32; 772]
  | 178 => [50] | 179 => [51] | 180 => [32; acute] | 181 => [956]
  | 184 => [32; cedil] | 185 => [49] | 186 => [111]
  | 188 => [49; 8260; 52] | 189 => [49; 8260; 50] | 190 => [51; 8260; 52]
  | 192 => [65; grave] | 193 => [65; acute] | 194 => [65; circ]
  | 195 => [65; tilde] | 196 => [65; diaer] | 197 => [65; ring]
  | 199 => [67; cedil]
  | 200 => [69; grave] | 201 => [69; acute] | 202 => [69; circ] | 203 => [69; diaer]
  | 204 => [73; grave] | 205 => [73; acute] | 206 => [73; circ] | 207 => [73; diaer]
  | 209 => [78; tilde]
  | 210 => [79; grave] | 211 => [79; acute] | 212 => [79; circ]
  | 213 => [79; tilde] | 214 => [79; diaer]
  | 217 => [85; grave] | 218 => [85; acute] | 219 => [85; circ] | 220 => [85; diaer]
  | 221 => [89; acute]
  | 224 => [97; grave] | 225 => [97; acute] | 226 => [97; circ]
  | 227 => [97; tilde] | 228 => [97; diaer] | 229 => [97; ring]
  | 231 => [99; cedil]
  | 232 => [101; grave] | 233 => [101; acute] | 234 => [101; circ] | 235 => [101; diaer]
  | 236 => [105; grave] | 237 => [105; acute] | 238 => [105; circ] | 239 => [105; diaer]
  | 241 => [110; tilde]
  | 242 => [111; grave] | 243 => [111; acute] | 244 => [111; circ]
  | 245 => [111; tilde] | 246 => [111; diaer]
  | 249 => [117; grave] | 250 => [117; acute] | 251 => [117; circ] | 252 => [117; diaer]
  | 253 => [121; acute] | 255 => [121; diaer]
  | _ => [c]
  end%N.

(** [unicodedata.normalize('NFKD', s)] on Latin-1 text: every character is
    followed by at most one mark, so no reordering of marks takes place. *)
Definition nfkd (s : ustring) : ustring := flat_map decomposition s.




(** [repr] of a finite non-zero float whose value is an integer below
    10^16 in magnitude: the digits followed by [.0]. Other floats are
    outside this excerpt (the empty text stands for them). *)
Definition float_repr (s : bool) (m : positive) (e : Z) : ustring :=
  match int_of_float (S754_finite s m e) with
  | Some n =>
      if is_integer (S754_finite s m e) && (Z.abs n <? 10 ^ 16)
      then str_of_int n ++ u ".0"
      else []
  | None => []
  end.

End Reference.

(** ** Data frames *)

Module Frame.

(** The column types the program tells apart: [object] columns hold Python
    objects (text among them), the others hold machine numbers. *)
Inductive dtype : Type := object | int64 | uint64 | float64.

Definition is_object (d : dtype) : bool :=
  match d with object => true | _ => false end.

Definition label := ustring.

(** A frame: the labelled, typed columns and the rows under them, in
    order. Labels are taken to be distinct within a frame, as the loaders
    and the column pickers of the application make them. *)
Record DataFrame : Type := mkDataFrame {
  columns : list (label * dtype);
  rows : list (list value)
}.

Definition labels (df : DataFrame) : list label := map fst (columns df).

(** [len(df)] *)
Definition len (df : DataFrame) : Z := Z.of_nat (length (rows df)).

(** Position of a label; [None] is the KeyError of a missing column. *)
Fixpoint get_loc (name : label) (cols : list label) : option nat :=
  match cols with
  | [] => None
  | c :: cols' =>
      if Text.eqb c name then Some 0%nat else option_map S (get_loc name cols')
  end.

Fixpoint get_locs (names cols : list label) : option (list nat) :=
  match names with
  | [] => Some []
  | n :: names' =>
      match get_loc n cols, get_locs names' cols with
      | Some i, Some l => Some (i :: l)
      | _, _ => None
      end
  end.

Definition cell (i : nat) (row : list value) : value := nth i row VNone.

(** [df[names]] with a list of labels, on a frame whose labels are
    distinct: one column for each name, in the order of the names; [None]
    is the KeyError of a missing label. *)
Definition select (df : DataFrame) (names : list label) : option DataFrame :=
  match get_locs names (labels df) with
  | Some idx =>
      Some {| columns := map (fun i => nth i (columns df) ([], object)) idx;
              rows := map (fun r => map (fun i => cell i r) idx) (rows df) |}
  | None => None
  end.

(** [df.columns = names]; [None] is the ValueError of a length mismatch. *)
Definition set_labels (df : DataFrame) (names : list label) : option DataFrame :=
  if Nat.eqb (length names) (length (columns df))
  then Some {| columns := combine names (map snd (columns df)); rows := rows df |}
  else None.

Fixpoint replace_nth {A : Type} (i : nat) (x : A) (l : list A) : list A :=
  match l, i with
  | [], _ => []
  | _ :: l', O => x :: l'
  | y :: l', S i' => y :: replace_nth i' x l'
  end.

Fixpoint remove_nth {A : Type} (i : nat) (l : list A) : list A :=
  match l, i with
  | [], _ => []
  | _ :: l', O => l'
  | y :: l', S i' => y :: remove_nth i' l'
  end.

(** [df[name] = values], the new cell of a row given as a function of the
    row: an existing column is overwritten in place, a new one is added
    last. *)
Definition assign (df : DataFrame) (name : label) (d : dtype)
           (f : list value -> value) : DataFrame :=
  match get_loc name (labels df) with
  | Some i =>
      {| columns := replace_nth i (name, d) (columns df);
         rows := map (fun r => replace_nth i (f r) r) (rows df) |}
  | None =>
      {| columns := columns df ++ [(name, d)];
         rows := map (fun r => r ++ [f r]) (rows df) |}
  end.

(** [df[mask]] with a boolean mask computed row by row *)
Definition filter_rows (p : list value -> bool) (df : DataFrame) : DataFrame :=
  {| columns := columns df; rows := filter p (rows df) |}.

Definition same_key (a b : value) : bool := hkey_eqb (hash_key a) (hash_key b).

(** [series.isin(values)] on one cell *)
Definition isin (v : value) (values : list value) : bool :=
  existsb (same_key v) values.

(** [pd.merge(left, right, on=on, how='inner')]: every pair of a left row
    and a right row with the same key, in the order of the left rows and,
    under one left row, of the right rows; the key column comes once, from
    the left. The two frames of the program share no other label, so no
    suffix is added. *)
Definition merge (left right : DataFrame) (on : label) : option DataFrame :=
  match get_loc on (labels left), get_loc on (labels right) with
  | Some i, Some j =>
      Some {| columns := columns left ++ remove_nth j (columns right);
              rows := flat_map
                        (fun l => map (fun r => l ++ remove_nth j r)
                                      (filter (fun r => same_key (cell i l) (cell j r))
                                              (rows right)))
                        (rows left) |}
  | _, _ => None
  end.

(** The scan of [drop_duplicates] (keep='first'): a row is kept unless the
    key in column [i] was met before. *)
Fixpoint first_wins (seen : list hkey) (i : nat) (l : list (list value))
  : list (list value) :=
  match l with
  | [] => []
  | r :: l' =>
      let k := hash_key (cell i r) in
      if existsb (hkey_eqb k) seen
      then first_wins seen i l'
      else r :: first_wins (k :: seen) i l'
  end.

(** [df.drop_duplicates(subset=[name])] on a frame that has rows and
    columns; [None] is the KeyError of a missing column. (A frame with no
    row or no column is handed back by pandas before the subset is looked
    at; the comparison never calls it with a missing column.) *)
Definition drop_duplicates (df : DataFrame) (name : label) : option DataFrame :=
  match get_loc name (labels df) with
  | Some i => Some {| columns := columns df; rows := first_wins [] i (rows df) |}
  | None => None
  end.

(** What [lib.maybe_convert_objects] has seen of an array of objects. *)
Record Seen : Type := mkSeen {
  null_ : bool;
  nan_ : bool;
  float_ : bool;
  int_ : bool;
  uint_ : bool;
  sint_ : bool
}.

Definition nothing_seen : Seen := mkSeen false false false false false false.

Definition oINT64_MIN : Z := - 2 ^ 63.
Definition oINT64_MAX : Z := 2 ^ 63 - 1.
Definition oUINT64_MAX : Z := 2 ^ 64 - 1.

(** [Seen.saw_int] *)
Definition saw_int (val : Z) (seen : Seen) : Seen :=
  mkSeen (null_ seen) (nan_ seen) (float_ seen) true
         (uint_ seen || ((oINT64_MAX <? val) && (val <=? oUINT64_MAX)))
         (sint_ seen || ((oINT64_MIN <=? val) && (val <? 0))).

(** How the scan of an array ends: with an exception, at an object that is
    no number (the array is then returned as it is), or at the end of the
    array. *)
Inductive scanned : Type :=
| Raised
| IsObject
| Numeric (seen : Seen).

(** The loop of [lib.maybe_convert_objects] over the cells, in order. An int
    is written to the array of floats before its range is looked at, so one
    too large for a float raises; the range of an int is looked at only as
    long as no [None] was met. *)
Fixpoint scan_objects (seen : Seen) (objects : list value) : scanned :=
  match objects with
  | [] => Numeric seen
  | val :: objects' =>
      match val with
      | VNone =>
          scan_objects (mkSeen true (nan_ seen) (float_ seen) (int_ seen)
                               (uint_ seen) (sint_ seen)) objects'
      | VFloat S754_nan =>
          scan_objects (mkSeen (null_ seen) true (float_ seen) (int_ seen)
                               (uint_ seen) (sint_ seen)) objects'
      | VFloat _ =>
          scan_objects (mkSeen (null_ seen) (nan_ seen) true (int_ seen)
                               (uint_ seen) (sint_ seen)) objects'
      | VInt n =>
          match float_of_int n with
          | None => Raised
          | Some _ =>
              let seen := mkSeen (null_ seen) (nan_ seen) (float_ seen) true
                                 (uint_ seen) (sint_ seen) in
              if null_ seen then scan_objects seen objects'
              else
                let seen := saw_int n seen in
                if (uint_ seen && sint_ seen) || (oUINT64_MAX <? n) || (n <? oINT64_MIN)
                then IsObject
                else scan_objects seen objects'
          end
      | VStr _ => IsObject
      end
  end.

(** [lib.maybe_convert_objects(objects)], as [Series.apply] calls it on
    what the function returned: the type of the array that comes back.
    Numbers beside a missing value, and numbers with a float among them,
    come back as floats; ints alone as 64-bit ints; an array with a string,
    with nothing but [None], or with an int outside 64 bits comes back as it
    is. [None] is a raised exception. *)
Definition maybe_convert_objects (objects : list value) : option dtype :=
  match scan_objects nothing_seen objects with
  | Raised => None
  | IsObject => Some object
  | Numeric seen =>
      if null_ seen || nan_ seen
      then (if float_ seen || int_ seen || nan_ seen then Some float64 else Some object)
      else if float_ seen then Some float64
      else if int_ seen then Some (if uint_ seen then uint64 else int64)
      else Some object
  end.

(** The cell of the array that comes back, for a cell of the array given:
    in an array of floats an int is its float and [None] is NaN. *)
Definition converted (d : dtype) (v : value) : value :=
  match d, v with
  | float64, VNone => VFloat S754_nan
  | float64, VInt n =>
      match float_of_int n with
      | Some f => VFloat f
      | None => v
      end
  | _, _ => v
  end.

(** [series.apply(f)] on an object column: the type of the series that is
    returned, and what a cell of the series becomes in it. *)
Definition series_apply (f : value -> value) (series : list value)
  : option (dtype * (value -> value)) :=
  match maybe_convert_objects (map f series) with
  | Some d => Some (d, fun v => converted d (f v))
  | None => None
  end.

(** One step per column of
    [for col in df.select_dtypes(include=['object']).columns:
       df[col] = df[col].apply(f)];
    [j] is the position of the first of the columns [cols]. *)
Fixpoint apply_columns (f : value -> value) (rows : list (list value)) (j : nat)
         (cols : list (label * dtype))
  : option (list (label * dtype * (value -> value))) :=
  match cols with
  | [] => Some []
  | c :: cols' =>
      match (if is_object (snd c)
             then series_apply f (map (cell j) rows)
             else Some (snd c, fun v => v)) with
      | Some (d, g) =>
          match apply_columns f rows (S j) cols' with
          | Some l => Some ((fst c, d, g) :: l)
          | None => None
          end
      | None => None
      end
  end.

(** The cells of a row, each through the function of its column. *)
Fixpoint apply_each (gs : list (value -> value)) (r : list value)
  {struct r} : list value :=
  match r, gs with
  | v :: r', g :: gs' => g v :: apply_each gs' r'
  | _, _ => r
  end.

(** [for col in df.select_dtypes(include=['object']).columns:
       df[col] = df[col].apply(f)] *)
Definition apply_object_columns (f : value -> value) (df : DataFrame)
  : option DataFrame :=
  match apply_columns f (rows df) 0 (columns df) with
  | Some l =>
      Some {| columns := map fst l;
              rows := map (apply_each (map snd l)) (rows df) |}
  | None => None
  end.

(** [df.astype(str)]: every cell becomes its text, every column an
    [object] column (pandas before 3.0, where a missing number becomes the
    text nan). *)
Definition astype_str (str : value -> ustring) (df : DataFrame) : DataFrame :=
  {| columns := map (fun c => (fst c, object)) (columns df);
     rows := map (map (fun v => VStr (str v))) (rows df) |}.

End Frame.

Import Frame.

(** ** The results of a comparison *)

Record trim_options : Type := mkTrim {
  enable : bool;
  trim_start : Z;
  trim_end : Z
}.

Module Stats.
(** [st.session_state['statistics']] *)
Record t : Type := mk {
  total_records : Z;
  total_unique : Z;
  unique_matches : Z;
  unique_non_matches : Z;
  duplicate_matches : Z;
  duplicate_non_matches : Z
}.
End Stats.

(** What the comparison leaves behind: the two joined frames, the two frames
    stored in the session and exported, and the statistics. *)
Record comparison : Type := mkComparison {
  matches : DataFrame;
  non_matches : DataFrame;
  unique_matches : DataFrame;
  unique_non_matches : DataFrame;
  statistics : Stats.t
}.

Definition normalized_key : label := u "normalized_key".

Notation "x <- e ;; k" :=
  (match e with Some x => k | None => None end)
  (at level 61, e at next level, right associativity, only parsing).

(** ** The program *)

Section Program.

Variable isdigit : N -> bool.
Variable nfkd : ustring -> ustring.
Variable float_repr : bool -> positive -> Z -> ustring.

(** [str(value)]; for an int, within the interpreter's limit on the
    conversion of an int to text (4300 digits unless it is configured
    otherwise). *)
Definition py_str (v : value) : ustring :=
  match v with
  | VNone => u "None"
  | VStr s => s
  | VInt n => str_of_int n
  | VFloat (S754_zero s) => if s then u "-0.0" else u "0.0"
  | VFloat (S754_infinity s) => if s then u "-inf" else u "inf"
  | VFloat S754_nan => u "nan"
  | VFloat (S754_finite s m e) => float_repr s m e
  end.

(** [remove_accents]: the body of the [try]; [None] is a raised exception
    (the TypeError of [unicodedata.normalize] on a value that is no [str],
    or a decoding error). *)
Definition remove_accents_try (input_str : value) : option value :=
  match input_str with
  | VStr s =>
      let nfkd_form := nfkd s in
      let only_ascii := encode_ascii_ignore nfkd_form in
      option_map VStr (decode_ascii only_ascii)
  | _ => None
  end.

Definition remove_accents (input_str : value) : value :=
  match remove_accents_try input_str with
  | Some r => r
  | None => input_str
  end.

(** [normalize_value]: the body of the [try]; [None] is a raised
    exception. *)
Definition normalize_value_try (value : value) (trim_start trim_end : Z)
  : option ustring :=
  if isna value then Some []
  else
    let value_str := py_str value in
    let value_str :=
      if trim_start >? 0 then slice_from trim_start value_str else value_str in
    let value_str :=
      if trim_end >? 0
      then (if trim_end <? Text.len value_str
            then slice_until_last trim_end value_str else [])
      else value_str in
    let value_str := filter isdigit value_str in
    match value with
    | VFloat f =>
        if is_integer f
        then n <- int_of_float f ;; Some (str_of_int n)
        else Some value_str
    | _ => Some value_str
    end.

Definition normalize_value (value : value) (trim_start trim_end : Z) : ustring :=
  match normalize_value_try value trim_start trim_end with
  | Some s => s
  | None => filter isdigit (py_str value)
  end.

(** [normalize_column]; [new_column_name] is [None] when the argument is
    left out. *)
Definition normalize_column (df : DataFrame) (column_name : label)
           (new_column_name : option label) (trim_start trim_end : Z)
  : option DataFrame :=
  i <- get_loc column_name (labels df) ;;
  let normalized r := VStr (normalize_value (cell i r) trim_start trim_end) in
  match new_column_name with
  | Some (c :: n) => Some (assign df (c :: n) object normalized)
  | _ => Some (assign df column_name object normalized)
  end.

Definition get_unique_records (df : DataFrame) (column_name : label)
  : option DataFrame :=
  drop_duplicates df column_name.

(** The frame that enters the join for one source ([main], the steps from
    the normalisation of the chosen column to the renaming of the
    additional columns); [tag] is [_dataset1] or [_dataset2]. *)
Definition merge_data (tag : ustring) (data : DataFrame) (selected_column : label)
           (additional_columns : list label) (trim : trim_options)
  : option DataFrame :=
  normalized_data <- normalize_column data selected_column (Some normalized_key)
                       (if enable trim then trim_start trim else 0)
                       (if enable trim then trim_end trim else 0) ;;
  match additional_columns with
  | [] => select normalized_data [normalized_key]
  | _ :: _ =>
      let renamed := map (fun col => col ++ tag) additional_columns in
      projected <- select normalized_data (normalized_key :: additional_columns) ;;
      set_labels projected (normalized_key :: renamed)
  end.

(** The comparison of [main]: the second source against the first, from
    the normalisation of the chosen columns to the frames and statistics
    that are stored in the session. The Excel export that [main] runs on
    the two returned frames before it stores them is left out: [None] is an
    exception raised by the steps below, [Some] what is stored once the
    export has completed. *)
Definition compare
           (data1 : DataFrame) (selected_column1 : label)
           (additional_columns1 : list label) (trim_options1 : trim_options)
           (data2 : DataFrame) (selected_column2 : label)
           (additional_columns2 : list label) (trim_options2 : trim_options)
  : option comparison :=
  merge_data1 <- merge_data (u "_dataset1") data1 selected_column1
                   additional_columns1 trim_options1 ;;
  merge_data2 <- merge_data (u "_dataset2") data2 selected_column2
                   additional_columns2 trim_options2 ;;
  let selected_cols1_renamed :=
    map (fun col => col ++ u "_dataset1") additional_columns1 in
  let selected_cols2_renamed :=
    map (fun col => col ++ u "_dataset2") additional_columns2 in
  matches <- merge merge_data2 merge_data1 normalized_key ;;
  k1 <- get_loc normalized_key (labels merge_data1) ;;
  k2 <- get_loc normalized_key (labels merge_data2) ;;
  let keys1 := map (cell k1) (rows merge_data1) in
  let non_matches := filter_rows (fun r => negb (isin (cell k2 r) keys1)) merge_data2 in
  let non_matches :=
    fold_left (fun df col_renamed =>
                 assign df col_renamed float64 (fun _ => VFloat S754_nan))
              selected_cols1_renamed non_matches in
  let columns_order :=
    normalized_key :: selected_cols2_renamed ++ selected_cols1_renamed in
  non_matches <- select non_matches columns_order ;;
  unique_matches <- get_unique_records matches normalized_key ;;
  unique_non_matches <- get_unique_records non_matches normalized_key ;;
  unique_matches <- apply_object_columns remove_accents unique_matches ;;
  unique_non_matches <- apply_object_columns remove_accents unique_non_matches ;;
  let unique_matches := astype_str py_str unique_matches in
  let unique_non_matches := astype_str py_str unique_non_matches in
  unique2 <- get_unique_records data2 selected_column2 ;;
  Some {| matches := matches;
          non_matches := non_matches;
          unique_matches := unique_matches;
          unique_non_matches := unique_non_matches;
          statistics :=
            {| Stats.total_records := len data2;
               Stats.total_unique := len unique2;
               Stats.unique_matches := len unique_matches;
               Stats.unique_non_matches := len unique_non_matches;
               Stats.duplicate_matches := len matches - len unique_matches;
               Stats.duplicate_non_matches :=
                 len non_matches - len unique_non_matches |} |}.

End Program.

(** ** What the properties are stated with

    The readings of the specification that the program is compared with,
    the vocabulary of the statements, and the frames of the examples. *)

(** A float with zero fractional part and a value below zero. *)
Definition negative_integral_float (v : value) : bool :=
  match v with
  | VFloat f =>
      is_integer f && match int_of_float f with Some n => n <? 0 | None => false end
  | _ => false
  end.

(** Following the specification's words (4.1, steps 1 to 5): the text of a
    float with zero fractional part is its integer form, and the two trims
    and the digit filter act on that text. *)
Definition normalize_value_spec (isdigit : N -> bool)
           (float_repr : bool -> positive -> Z -> ustring)
           (value : value) (trim_start trim_end : Z) : ustring :=
  if isna value then []
  else
    let text :=
      match value with
      | VFloat f =>
          match int_of_float f with
          | Some n => if is_integer f then str_of_int n else py_str float_repr value
          | None => py_str float_repr value
          end
      | _ => py_str float_repr value
      end in
    let text := if trim_start >? 0 then slice_from trim_start text else text in
    let text :=
      if trim_end >? 0
      then (if trim_end <? Text.len text then slice_until_last trim_end text else [])
      else text in
    filter isdigit text.

(** -42.0 and 42.0 as binary64 numbers. *)
Definition float_minus_42 : spec_float := S754_finite true 5910974510923776 (-47).
Definition float_42 : spec_float := S754_finite false 5910974510923776 (-47).

(** [l1] is a subsequence of [l2]: elements of [l2], in their order. *)
Inductive Subseq {A : Type} : list A -> list A -> Prop :=
| Subseq_nil : Subseq [] []
| Subseq_keep x l1 l2 : Subseq l1 l2 -> Subseq (x :: l1) (x :: l2)
| Subseq_drop x l1 l2 : Subseq l1 l2 -> Subseq l1 (x :: l2).

(** The key of a row: what is compared of the cell in column [i]. *)
Definition key_at (i : nat) (r : list value) : hkey := hash_key (cell i r).

Definition has_key (i : nat) (k : hkey) (r : list value) : bool :=
  hkey_eqb (key_at i r) k.

(** The number of rows with key [k]. *)
Definition count_key (i : nat) (k : hkey) (l : list (list value)) : nat :=
  length (filter (has_key i k) l).

(** The table of the specification's example: [k] is 1, 2, 1 and [v] is a,
    b, c. *)
Definition dedup_example : DataFrame :=
  {| columns := [(u "k", int64); (u "v", object)];
     rows := [[VInt 1; VStr (u "a")]; [VInt 2; VStr (u "b")];
              [VInt 1; VStr (u "c")]] |}.

(** A frame is rectangular: every row has one cell per column. *)
Definition rectangular (df : DataFrame) : Prop :=
  Forall (fun r => length r = length (columns df)) (rows df).

(** A frame that enters the join: [normalized_key] first, then the renamed
    additional columns, over rows of that width. *)
Definition projection_of (tag : ustring) (additional_columns : list label)
           (m : DataFrame) : Prop :=
  labels m = normalized_key :: map (fun col => col ++ tag) additional_columns
  /\ Forall (fun r => length r = S (length additional_columns)) (rows m).

(** Following the specification's words (4.2, step 4): the inner equi-join
    of two lists of rows on the keys in columns [i] and [j], as the pairs of
    the Cartesian product whose keys agree; the key column comes once. *)
Definition equi_join_spec (i j : nat) (left right : list (list value))
  : list (list value) :=
  map (fun p => fst p ++ remove_nth j (snd p))
      (filter (fun p => hkey_eqb (key_at i (fst p)) (key_at j (snd p)))
              (list_prod left right)).

(** The missing number that fills the first source's columns of a row
    without a match. *)
Definition nan : value := VFloat S754_nan.

Definition dataset1 : ustring := u "_dataset1".
Definition dataset2 : ustring := u "_dataset2".

Definition renamed (tag : ustring) (additional_columns : list label) : list label :=
  map (fun col => col ++ tag) additional_columns.

(** The rows of the second projection whose key does not occur in the
    first. *)
Definition unmatched (m1 m2 : DataFrame) : list (list value) :=
  filter (fun r => negb (existsb (has_key 0 (key_at 0 r)) (rows m1))) (rows m2).

(** The number of distinct keys in column [i]. *)
Definition distinct_keys (i : nat) (l : list (list value)) : nat :=
  length (nodup hkey_eq_dec (map (key_at i) l)).

Definition add_nan (df : DataFrame) (col : label) : DataFrame :=
  assign df col float64 (fun _ => nan).

Definition float_1 : spec_float := S754_finite false 4503599627370496 (-52).
Definition float_7 : spec_float := S754_finite false 7881299347898368 (-50).

(** Source 1: ids 1, 2, 1 with a name each (the first is Jose with
    an acute accent, U+00E9). Source 2: numbers 42.0, 1.0, 1.0, 7.0, 7.0 with a value each
    (one that is the letter U+00F8, and a missing one). *)
Definition example_data1 : DataFrame :=
  {| columns := [(u "id", int64); (u "name", object)];
     rows := [[VInt 1; VStr (u "Jos" ++ [233%N])];
              [VInt 2; VStr (u "b")];
              [VInt 1; VStr (u "c")]] |}.

Definition example_data2 : DataFrame :=
  {| columns := [(u "k", float64); (u "v", object)];
     rows := [[VFloat float_42; VStr (u "x")];
              [VFloat float_1; VStr [248%N]];
              [VFloat float_1; VNone];
              [VFloat float_7; VStr (u "q")];
              [VFloat float_7; VStr (u "q2")]] |}.

Definition no_trim : trim_options := mkTrim false 0 0.

Definition example_compare : option comparison :=
  compare Reference.isdigit Reference.nfkd Reference.float_repr
          example_data1 (u "id") [u "name"] no_trim
          example_data2 (u "k") [u "v"] no_trim.

(** The last two steps of the comparison on a deduplicated frame: accents
    off the object columns, then every cell as text. *)
Definition render (nfkd : ustring -> ustring)
           (float_repr : bool -> positive -> Z -> ustring) (df : DataFrame)
  : option DataFrame :=
  option_map (astype_str (py_str float_repr))
             (apply_object_columns (remove_accents nfkd) df).


(** The keys of a frame whose first column is [normalized_key]. *)
Definition normalized_keys (df : DataFrame) : list hkey :=
  map (key_at 0) (rows df).













(** The text of the cell is ASCII. *)
Definition ascii_cell (float_repr : bool -> positive -> Z -> ustring) (v : value)
  : Prop :=
  Forall (fun c => is_ascii c = true) (py_str float_repr v).

(** A table of one column, [key], with the given cells. *)
Definition keys_table (d : dtype) (keys : list value) : DataFrame :=
  {| columns := [(u "key", d)]; rows := map (fun k => [k]) keys |}.

Definition scenario_table1 : DataFrame :=
  keys_table object [VStr (u "001"); VStr (u "002")].

Definition scenario_table2 : DataFrame :=
  keys_table object [VStr (u "1"); VStr (u "2"); VStr (u "3")].

(** The first table with its keys read as the numbers 1 and 2. *)
Definition scenario_table1_numbers : DataFrame :=
  keys_table int64 [VInt 1; VInt 2].

(** A second source whose additional column mixes a number, a missing
    value and a text, the text in a row that the deduplication drops. *)
Definition mixed_data2 : DataFrame :=
  {| columns := [(u "k", int64); (u "v", object)];
     rows := [[VInt 1; VInt 5]; [VInt 2; VNone]; [VInt 2; VStr (u "a")]] |}.

Definition mixed_compare : option comparison :=
  compare Reference.isdigit Reference.nfkd Reference.float_repr
          scenario_table1_numbers (u "key") [] no_trim
          mixed_data2 (u "k") [u "v"] no_trim.

(** A float with zero fractional part. *)
Definition integral_float (v : value) : bool :=
  match v with
  | VFloat f => is_integer f
  | _ => false
  end.

(** The part of a text that the two trims leave: from position
    [trim_start] up to [trim_end] characters before the end. A trim that is
    not positive removes nothing; trims that meet or cross leave nothing. *)
Definition trimmed (trim_start trim_end : Z) (s : ustring) : ustring :=
  firstn (Z.to_nat (Text.len s - Z.max 0 trim_start - Z.max 0 trim_end))
         (skipn (Z.to_nat trim_start) s).

(** [df[name]] with one label: the cells of the column. *)
Definition column (df : DataFrame) (name : label) : option (list value) :=
  i <- get_loc name (labels df) ;; Some (map (cell i) (rows df)).

(** The column that [normalize_column] writes: [new_column_name] when it is
    given (and not empty), the source column otherwise. *)
Definition written_column (column_name : label) (new_column_name : option label)
  : label :=
  match new_column_name with
  | Some (c :: n) => c :: n
  | _ => column_name
  end.

(** The columns a source must have for the comparison: the chosen column,
    and every additional column (which may also be [normalized_key], a
    column of the normalised frame). *)
Definition usable (data : DataFrame) (selected_column : label)
           (additional_columns : list label) : Prop :=
  In selected_column (labels data)
  /\ forall e, In e additional_columns ->
               In e (labels data) \/ e = normalized_key.

(** The rows of the second projection whose key occurs in the first. *)
Definition matched (m1 m2 : DataFrame) : list (list value) :=
  filter (fun r => existsb (has_key 0 (key_at 0 r)) (rows m1)) (rows m2).

(** A source with a column [id] and no row. *)
Definition empty_source : DataFrame :=
  {| columns := [(u "id", object)]; rows := [] |}.

(** [series.dropna().astype(str)]: the text of the cells that are not
    missing. *)
Definition dropna_astype_str (float_repr : bool -> positive -> Z -> ustring)
           (series : list value) : list ustring :=
  map (py_str float_repr) (filter (fun v => negb (isna v)) series).

(** [main], the processed records shown for a source before a comparison:
    the first five records of the chosen column as text, cut by the trims
    when trimming is enabled, then given to [normalize_value] with the same
    trims. *)
Definition sample_normalized (isdigit : N -> bool)
           (float_repr : bool -> positive -> Z -> ustring)
           (data : DataFrame) (selected_column : label) (trim : trim_options)
  : option (list ustring) :=
  series <- column data selected_column ;;
  let head := firstn 5 (dropna_astype_str float_repr series) in
  if enable trim
  then
    let sample_trimmed :=
      map (fun x => if trim_end trim >? 0
                    then slice_until_last (trim_end trim) x else x)
          (map (fun x => if trim_start trim >? 0
                         then slice_from (trim_start trim) x else x)
               head) in
    Some (map (fun x => normalize_value isdigit float_repr (VStr x)
                                        (trim_start trim) (trim_end trim))
              sample_trimmed)
  else Some (map (fun x => normalize_value isdigit float_repr (VStr x) 0 0) head).

(** [calculate_length_stats]: the series of lengths,
    [series.dropna().astype(str).apply(len)]. *)
Definition lengths (float_repr : bool -> positive -> Z -> ustring)
           (series : list value) : list Z :=
  map Text.len (dropna_astype_str float_repr series).

(** The entries [min] and [max] of the dictionary that
    [calculate_length_stats] returns (0 when there is no length). The entry
    [mean] is a rounded floating-point number and is not embedded. *)
Definition calculate_length_stats_min
           (float_repr : bool -> positive -> Z -> ustring) (series : list value) : Z :=
  match lengths float_repr series with
  | [] => 0
  | x :: l => fold_left Z.min l x
  end.

Definition calculate_length_stats_max
           (float_repr : bool -> positive -> Z -> ustring) (series : list value) : Z :=
  match lengths float_repr series with
  | [] => 0
  | x :: l => fold_left Z.max l x
  end.

(** ** The normalizer *)

Lemma digits_of_uint_ascii_digit (d : uint) :
  Forall (fun c => is_ascii_digit c = true) (digits_of_uint d).
Proof.
  induction d; simpl; constructor; auto.
Qed.

Lemma str_of_int_nonneg (n : Z) :
  0 <= n -> Forall (fun c => is_ascii_digit c = true) (str_of_int n).
Proof.
  intros Hn. unfold str_of_int, Z.to_int.
  destruct n as [|p|p]; try apply digits_of_uint_ascii_digit.
  exfalso. apply Hn. reflexivity.
Qed.

Lemma is_ascii_digit_is_ascii (c : N) : is_ascii_digit c = true -> is_ascii c = true.
Proof.
  unfold is_ascii_digit, is_ascii. intros H.
  apply andb_true_iff in H. destruct H as [_ H].
  apply N.leb_le in H. apply N.ltb_lt. lia.
Qed.

Lemma is_integer_int_of_float (f : spec_float) :
  is_integer f = true -> exists n, int_of_float f = Some n.
Proof.
  destruct f; simpl; intros H; try discriminate; eauto.
Qed.

Lemma Reference_isdigit_ascii (c : N) :
  is_ascii c = true -> Reference.isdigit c = is_ascii_digit c.
Proof.
  unfold is_ascii. intros H. apply N.ltb_lt in H.
  assert (Hn : exists n, (n < 128)%nat /\ c = N.of_nat n).
  { exists (N.to_nat c). split; [lia | now rewrite N2Nat.id]. }
  destruct Hn as (n & Hlt & ->). clear H.
  do 128 (destruct n as [|n]; [vm_compute; reflexivity|]).
  exfalso. lia.
Qed.

Section Normalizer.

Variable isdigit : N -> bool.
Variable float_repr : bool -> positive -> Z -> ustring.

(** On ASCII, the Unicode digit test is the test for 0-9. *)
Hypothesis isdigit_ascii :
  forall c, is_ascii c = true -> isdigit c = is_ascii_digit c.

Lemma filter_isdigit_passes (s : ustring) :
  Forall (fun c => isdigit c = true) (filter isdigit s).
Proof.
  apply Forall_forall. intros c Hc. apply filter_In in Hc. apply Hc.
Qed.

Lemma ascii_digit_passes (s : ustring) :
  Forall (fun c => is_ascii_digit c = true) s ->
  Forall (fun c => isdigit c = true) s.
Proof.
  apply Forall_impl. intros c Hc.
  rewrite isdigit_ascii; auto using is_ascii_digit_is_ascii.
Qed.

Lemma filter_isdigit_ascii_digits (s : ustring) :
  Forall (fun c => is_ascii_digit c = true) s -> filter isdigit s = s.
Proof.
  induction 1 as [|c s Hc _ IH]; simpl; [reflexivity|].
  rewrite isdigit_ascii, Hc, IH; auto using is_ascii_digit_is_ascii.
Qed.

Lemma normalize_value_integral (f : spec_float) (n ts te : Z) :
  is_integer f = true -> int_of_float f = Some n ->
  normalize_value isdigit float_repr (VFloat f) ts te = str_of_int n.
Proof.
  intros Hf Hn. unfold normalize_value, normalize_value_try.
  destruct (isna (VFloat f)) eqn:Hna.
  - destruct f; simpl in *; discriminate.
  - rewrite Hf, Hn. reflexivity.
Qed.

Lemma normalize_value_passes (v : value) (ts te : Z) :
  negative_integral_float v = false ->
  Forall (fun c => isdigit c = true)
         (normalize_value isdigit float_repr v ts te).
Proof.
  intros Hneg. unfold normalize_value, normalize_value_try.
  destruct (isna v); [constructor|].
  destruct v as [|s|n|f]; try apply filter_isdigit_passes.
  simpl in Hneg.
  destruct (is_integer f) eqn:Hf; [|apply filter_isdigit_passes].
  destruct (is_integer_int_of_float f Hf) as [n Hn].
  rewrite Hn in *. simpl in Hneg.
  apply ascii_digit_passes, str_of_int_nonneg.
  apply Z.ltb_ge in Hneg. exact Hneg.
Qed.

End Normalizer.

(** C1 (as amended). For every input value other than a negative float with
    zero fractional part, and all [trim_start]/[trim_end] arguments, every
    character of the string returned by [normalize_value] passes the Unicode
    digit test [str.isdigit] (the string may be empty); the characters of the
    result that are ASCII are decimal digits 0-9. *)
Theorem normalize_value_only_digits :
  forall (isdigit : N -> bool) (float_repr : bool -> positive -> Z -> ustring),
    (forall c, is_ascii c = true -> isdigit c = is_ascii_digit c) ->
    forall (v : value) (trim_start trim_end : Z),
      negative_integral_float v = false ->
      Forall (fun c => isdigit c = true
                       /\ (is_ascii c = true -> is_ascii_digit c = true))
             (normalize_value isdigit float_repr v trim_start trim_end).
Proof.
  intros isdigit float_repr Hascii v ts te Hneg.
  pose proof (normalize_value_passes isdigit float_repr Hascii v ts te Hneg) as H.
  revert H. apply Forall_impl. intros c Hc. split; [exact Hc|].
  intros Ha. rewrite <- (Hascii c Ha). exact Hc.
Qed.

Lemma normalize_value_only_digits_witness :
  Forall (fun c => Reference.isdigit c = true
                   /\ (is_ascii c = true -> is_ascii_digit c = true))
         (normalize_value Reference.isdigit Reference.float_repr
                          (VStr (u "AB-12-34")) 3 1).
Proof.
  exact (normalize_value_only_digits Reference.isdigit Reference.float_repr
           Reference_isdigit_ascii (VStr (u "AB-12-34")) 3 1 eq_refl).
Defined.

(** C1, as stated, fails twice: the float -42.0 comes back with its sign,
    and the superscript two (U+00B2), a digit for [str.isdigit], is kept. *)
Lemma normalize_value_not_only_0_to_9 :
  is_binary64 float_minus_42 = true
  /\ normalize_value Reference.isdigit Reference.float_repr
       (VFloat float_minus_42) 0 0 = u "-42"
  /\ forallb is_ascii_digit (u "-42") = false
  /\ normalize_value Reference.isdigit Reference.float_repr
       (VStr [120; 178]%N) 0 0 = [178]%N
  /\ is_ascii_digit 178 = false.
Proof.
  repeat split; vm_compute; reflexivity.
Qed.

(** What the code does on a float with zero fractional part and a value
    [n] that is not negative: the integer form of the number is returned,
    whatever the trims are; with the default trims this is
    [normalize_value] of the integer [n]. *)
Lemma normalize_value_float_integer_form :
  forall (isdigit : N -> bool) (float_repr : bool -> positive -> Z -> ustring),
    (forall c, is_ascii c = true -> isdigit c = is_ascii_digit c) ->
    forall (f : spec_float) (n trim_start trim_end : Z),
      is_integer f = true -> int_of_float f = Some n -> 0 <= n ->
      normalize_value isdigit float_repr (VFloat f) trim_start trim_end
      = str_of_int n
      /\ normalize_value isdigit float_repr (VFloat f) 0 0
         = normalize_value isdigit float_repr (VInt n) 0 0.
Proof.
  intros isdigit float_repr Hascii f n ts te Hf Hn Hpos.
  split.
  - apply normalize_value_integral; assumption.
  - rewrite (normalize_value_integral isdigit float_repr f n 0 0 Hf Hn).
    unfold normalize_value, normalize_value_try. simpl.
    symmetry. apply filter_isdigit_ascii_digits; auto using str_of_int_nonneg.
Qed.

(** C2. The code on floats with zero fractional part, against the claim
    that the integer form is the text which the trims and the digit filter
    then act on. With the default trims, 42.0 and 42 both give 42, as
    claimed. With [trim_start = 1] the float 42.0 still gives 42, where the
    claim (and the code on the integer 42) gives 2; and -42.0 gives -42,
    where the claim (and the code on the integer -42) gives 42: the integer
    form replaces the trimmed and filtered text instead of entering the
    trims and the filter. *)
Lemma normalize_value_float_bypasses_trim :
  forallb is_binary64 [float_42; float_minus_42] = true
  /\ normalize_value Reference.isdigit Reference.float_repr (VFloat float_42) 0 0
     = u "42"
  /\ normalize_value Reference.isdigit Reference.float_repr (VInt 42) 0 0
     = u "42"
  /\ normalize_value Reference.isdigit Reference.float_repr (VFloat float_42) 1 0
     = u "42"
  /\ normalize_value_spec Reference.isdigit Reference.float_repr (VFloat float_42) 1 0
     = u "2"
  /\ normalize_value Reference.isdigit Reference.float_repr (VInt 42) 1 0
     = u "2"
  /\ normalize_value Reference.isdigit Reference.float_repr (VFloat float_minus_42) 0 0
     = u "-42"
  /\ normalize_value_spec Reference.isdigit Reference.float_repr
       (VFloat float_minus_42) 0 0
     = u "42"
  /\ normalize_value Reference.isdigit Reference.float_repr (VInt (-42)) 0 0
     = u "42".
Proof.
  repeat split; vm_compute; reflexivity.
Qed.

(** ** First-wins deduplication *)

#[local] Hint Constructors Subseq : core.

Lemma hkey_eqb_eq (a b : hkey) : hkey_eqb a b = true <-> a = b.
Proof.
  unfold hkey_eqb. destruct (hkey_eq_dec a b); split; congruence.
Qed.

Lemma hkey_eqb_refl (a : hkey) : hkey_eqb a a = true.
Proof. now apply hkey_eqb_eq. Qed.

Lemma hkey_eqb_neq (a b : hkey) : hkey_eqb a b = false <-> a <> b.
Proof.
  unfold hkey_eqb. destruct (hkey_eq_dec a b); split; congruence.
Qed.

Lemma hkey_eqb_sym (a b : hkey) : hkey_eqb a b = hkey_eqb b a.
Proof.
  unfold hkey_eqb. destruct (hkey_eq_dec a b), (hkey_eq_dec b a); congruence.
Qed.

Lemma seen_In (k : hkey) (seen : list hkey) :
  existsb (hkey_eqb k) seen = true <-> In k seen.
Proof.
  rewrite existsb_exists. split.
  - intros (x & Hx & E). apply hkey_eqb_eq in E. now subst.
  - intros H. exists k. split; [assumption | apply hkey_eqb_refl].
Qed.

Lemma first_wins_Subseq (i : nat) (l : list (list value)) :
  forall seen, Subseq (first_wins seen i l) l.
Proof.
  induction l as [|r l IH]; intros seen; simpl; [constructor|].
  destruct (existsb _ seen); auto.
Qed.

Lemma first_wins_count (i : nat) (k : hkey) (l : list (list value)) :
  forall seen,
    count_key i k (first_wins seen i l)
    = if existsb (hkey_eqb k) seen then 0%nat
      else if existsb (has_key i k) l then 1%nat else 0%nat.
Proof.
  unfold count_key.
  induction l as [|r l IH]; intros seen; simpl.
  - now destruct (existsb _ seen).
  - destruct (existsb (hkey_eqb (hash_key (cell i r))) seen) eqn:Hseen.
    + rewrite IH. destruct (existsb (hkey_eqb k) seen) eqn:Hk; [reflexivity|].
      assert (Hne : has_key i k r = false).
      { unfold has_key, key_at. apply hkey_eqb_neq. intros E.
        rewrite E in Hseen. congruence. }
      now rewrite Hne.
    + simpl. destruct (has_key i k r) eqn:E; simpl; rewrite IH; simpl;
        unfold has_key, key_at in E; rewrite (hkey_eqb_sym k), E; simpl.
      * apply hkey_eqb_eq in E. rewrite <- E, Hseen. reflexivity.
      * reflexivity.
Qed.

Lemma first_wins_first (i : nat) (l : list (list value)) :
  forall seen r,
    In r (first_wins seen i l) ->
    ~ In (key_at i r) seen
    /\ find (has_key i (key_at i r)) l = Some r.
Proof.
  induction l as [|r0 l IH]; intros seen r; simpl; [tauto|].
  destruct (existsb (hkey_eqb (hash_key (cell i r0))) seen) eqn:Hseen.
  - intros Hin. destruct (IH _ _ Hin) as [Hns Hf]. split; [assumption|].
    assert (Hne : has_key i (key_at i r) r0 = false).
    { unfold has_key. apply hkey_eqb_neq. intros E.
      apply seen_In in Hseen. unfold key_at in *. rewrite E in Hseen. tauto. }
    now rewrite Hne.
  - intros [-> | Hin].
    + split.
      * intros Hs. apply seen_In in Hs. unfold key_at in Hs. congruence.
      * unfold has_key. now rewrite hkey_eqb_refl.
    + destruct (IH _ _ Hin) as [Hns Hf]. split.
      * intros Hs. apply Hns. now right.
      * assert (Hne : has_key i (key_at i r) r0 = false).
        { unfold has_key. apply hkey_eqb_neq. intros E.
          apply Hns. left. exact E. }
        now rewrite Hne.
Qed.

(** C5. For every table and key column, [get_unique_records] (the
    specification's [deduplicate]) returns a subsequence of the rows, under
    the same columns, in which every key value of the table appears exactly
    once, the row kept for a key being its first occurrence in the original
    order; on the example table it returns the rows (1, a) and (2, b). *)
Theorem get_unique_records_first_wins :
  (forall (df : DataFrame) (column_name : label) (out : DataFrame),
     get_unique_records df column_name = Some out ->
     exists i,
       get_loc column_name (labels df) = Some i
       /\ columns out = columns df
       /\ Subseq (rows out) (rows df)
       /\ (forall k, count_key i k (rows out)
                     = if existsb (has_key i k) (rows df) then 1%nat else 0%nat)
       /\ (forall r, In r (rows out) ->
                     find (has_key i (key_at i r)) (rows df) = Some r))
  /\ get_unique_records dedup_example (u "k")
     = Some {| columns := [(u "k", int64); (u "v", object)];
               rows := [[VInt 1; VStr (u "a")]; [VInt 2; VStr (u "b")]] |}.
Proof.
  split; [|reflexivity].
  intros df column_name out. unfold get_unique_records, drop_duplicates.
  destruct (get_loc column_name (labels df)) as [i|]; [|discriminate].
  intros [= <-]. exists i. simpl.
  split; [reflexivity|]. split; [reflexivity|].
  split; [apply first_wins_Subseq|]. split.
  - intros k. now rewrite first_wins_count.
  - intros r Hr. now apply first_wins_first in Hr.
Qed.

Lemma get_unique_records_first_wins_witness :
  exists i,
    get_loc (u "k") (labels dedup_example) = Some i
    /\ columns {| columns := [(u "k", int64); (u "v", object)];
                  rows := [[VInt 1; VStr (u "a")]; [VInt 2; VStr (u "b")]] |}
       = columns dedup_example
    /\ Subseq [[VInt 1; VStr (u "a")]; [VInt 2; VStr (u "b")]] (rows dedup_example)
    /\ (forall k, count_key i k [[VInt 1; VStr (u "a")]; [VInt 2; VStr (u "b")]]
                  = if existsb (has_key i k) (rows dedup_example)
                    then 1%nat else 0%nat)
    /\ (forall r, In r [[VInt 1; VStr (u "a")]; [VInt 2; VStr (u "b")]] ->
                  find (has_key i (key_at i r)) (rows dedup_example) = Some r).
Proof.
  exact (proj1 get_unique_records_first_wins dedup_example (u "k") _ eq_refl).
Defined.

(** ** Shape of the frames of a comparison *)

Lemma text_eqb_eq (a b : ustring) : Text.eqb a b = true <-> a = b.
Proof.
  unfold Text.eqb. destruct (list_eq_dec N.eq_dec a b); split; congruence.
Qed.

Lemma text_eqb_refl (a : ustring) : Text.eqb a a = true.
Proof. now apply text_eqb_eq. Qed.

Lemma get_loc_head (name : label) (l : list label) :
  get_loc name (name :: l) = Some 0%nat.
Proof. simpl. now rewrite text_eqb_refl. Qed.

Lemma get_loc_fst (name : label) (cols : list (label * dtype)) (d : label * dtype) :
  forall j, get_loc name (map fst cols) = Some j -> fst (nth j cols d) = name.
Proof.
  induction cols as [|c cols IH]; simpl; intros j; [discriminate|].
  destruct (Text.eqb (fst c) name) eqn:E.
  - intros [= <-]. now apply text_eqb_eq.
  - destruct (get_loc name (map fst cols)) as [j'|]; simpl; [|discriminate].
    intros [= <-]. now apply IH.
Qed.

Lemma get_loc_None (name : label) (l : list label) :
  get_loc name l = None <-> ~ In name l.
Proof.
  induction l as [|c l IH]; simpl; [tauto|].
  destruct (Text.eqb c name) eqn:E.
  - apply text_eqb_eq in E. split; [discriminate | tauto].
  - assert (c <> name) by (intros ->; rewrite text_eqb_refl in E; discriminate).
    destruct (get_loc name l); simpl.
    + split; [discriminate|]. intros H1. exfalso. apply H1. right.
      destruct IH as [_ IH]. destruct (in_dec (list_eq_dec N.eq_dec) name l); auto.
      specialize (IH n0). discriminate.
    + split; [|reflexivity]. intros _ [H1|H1]; [contradiction|].
      now apply (proj1 IH).
Qed.

Lemma get_locs_spec (cols : list (label * dtype)) (d : label * dtype) :
  forall names idx,
    get_locs names (map fst cols) = Some idx ->
    length idx = length names
    /\ map (fun i => fst (nth i cols d)) idx = names.
Proof.
  induction names as [|n names IH]; simpl; intros idx.
  - intros [= <-]. auto.
  - destruct (get_loc n (map fst cols)) as [i|] eqn:Hi; [|discriminate].
    destruct (get_locs names (map fst cols)) as [l|]; [|discriminate].
    intros [= <-]. destruct (IH l eq_refl) as [Hl Hm]. simpl.
    rewrite Hl, Hm, (get_loc_fst n cols d i Hi). auto.
Qed.

Lemma select_shape (df out : DataFrame) (names : list label) :
  select df names = Some out ->
  labels out = names
  /\ exists idx, get_locs names (labels df) = Some idx
                 /\ length idx = length names
                 /\ rows out = map (fun r => map (fun i => cell i r) idx) (rows df).
Proof.
  unfold select. destruct (get_locs names (labels df)) as [idx|] eqn:H; [|discriminate].
  intros [= <-]. unfold labels in *.
  destruct (get_locs_spec _ ([], object) _ _ H) as [Hl Hm].
  simpl. split.
  - now rewrite map_map.
  - exists idx. auto.
Qed.

Lemma map_fst_combine {A B : Type} (a : list A) :
  forall b : list B, length a = length b -> map fst (combine a b) = a.
Proof.
  induction a as [|x a IH]; intros [|y b]; simpl; try discriminate; auto.
  intros [= H]. now rewrite IH.
Qed.

Lemma set_labels_shape (df out : DataFrame) (names : list label) :
  set_labels df names = Some out -> labels out = names /\ rows out = rows df.
Proof.
  unfold set_labels. destruct (Nat.eqb _ _) eqn:E; [|discriminate].
  intros [= <-]. apply Nat.eqb_eq in E. unfold labels. simpl. split; [|reflexivity].
  apply map_fst_combine. now rewrite length_map.
Qed.

Lemma merge_data_shape isdigit float_repr tag data selected_column
      additional_columns trim m :
  merge_data isdigit float_repr tag data selected_column additional_columns trim
  = Some m ->
  projection_of tag additional_columns m.
Proof.
  unfold merge_data, projection_of.
  destruct (normalize_column _ _ _ _ _ _ _) as [nd|]; [|discriminate].
  destruct additional_columns as [|e es].
  - intros H. apply select_shape in H.
    destruct H as (Hl & idx & _ & Hlen & Hr). split; [exact Hl|].
    rewrite Hr. apply Forall_forall. intros r Hin.
    apply in_map_iff in Hin. destruct Hin as (r0 & <- & _).
    now rewrite length_map, Hlen.
  - destruct (select nd _) as [p|] eqn:Hs; [|discriminate].
    intros H. apply set_labels_shape in H. destruct H as [Hl Hr].
    apply select_shape in Hs. destruct Hs as (_ & idx & _ & Hlen & Hr').
    split; [exact Hl|].
    rewrite Hr, Hr'. apply Forall_forall. intros r Hin.
    apply in_map_iff in Hin. destruct Hin as (r0 & <- & _).
    rewrite length_map, Hlen. reflexivity.
Qed.

Lemma projection_key_loc tag extras m :
  projection_of tag extras m -> get_loc normalized_key (labels m) = Some 0%nat.
Proof.
  intros [Hl _]. rewrite Hl. apply get_loc_head.
Qed.

Lemma assign_length (df : DataFrame) (name : label) (d : dtype)
      (f : list value -> value) :
  length (rows (assign df name d f)) = length (rows df).
Proof.
  unfold assign. destruct (get_loc name (labels df)); simpl; apply length_map.
Qed.

Lemma normalize_column_key isdigit float_repr (df : DataFrame) (c : label)
      (ts te : Z) :
  normalize_column isdigit float_repr df c (Some normalized_key) ts te
  = option_map
      (fun i => assign df normalized_key object
                       (fun r => VStr (normalize_value isdigit float_repr
                                                       (cell i r) ts te)))
      (get_loc c (labels df)).
Proof.
  unfold normalize_column. now destruct (get_loc c (labels df)).
Qed.

(** The projection has one row per row of the source: nothing is dropped
    before the join. *)
Lemma merge_data_length isdigit float_repr tag data selected_column
      additional_columns trim m :
  merge_data isdigit float_repr tag data selected_column additional_columns trim
  = Some m ->
  length (rows m) = length (rows data).
Proof.
  unfold merge_data. rewrite normalize_column_key.
  destruct (get_loc selected_column (labels data)) as [i|]; [|discriminate].
  simpl option_map. cbv iota beta.
  set (nd := assign data normalized_key object _).
  assert (Hnd : length (rows nd) = length (rows data)) by apply assign_length.
  destruct additional_columns as [|e es].
  - intros H. apply select_shape in H. destruct H as (_ & idx & _ & _ & Hr).
    now rewrite Hr, length_map.
  - destruct (select nd _) as [p|] eqn:Hs; [|discriminate].
    intros H. apply set_labels_shape in H. destruct H as [_ Hr].
    apply select_shape in Hs. destruct Hs as (_ & idx & _ & _ & Hr').
    now rewrite Hr, Hr', length_map.
Qed.

(** ** The matcher *)

Lemma isin_has_key (v : value) (l : list (list value)) :
  isin v (map (cell 0) l) = existsb (has_key 0 (hash_key v)) l.
Proof.
  unfold isin. induction l as [|r l IH]; simpl; [reflexivity|].
  rewrite IH. unfold same_key, has_key, key_at.
  now rewrite hkey_eqb_sym.
Qed.

Lemma join_row_filter (i j : nat) (l : list value) (right : list (list value)) :
  map (fun r => l ++ remove_nth j r)
      (filter (fun r => same_key (cell i l) (cell j r)) right)
  = map (fun p => fst p ++ remove_nth j (snd p))
        (filter (fun p => hkey_eqb (key_at i (fst p)) (key_at j (snd p)))
                (map (fun r => (l, r)) right)).
Proof.
  induction right as [|r right IH]; simpl; [reflexivity|].
  unfold same_key, key_at in *.
  destruct (hkey_eqb (hash_key (cell i l)) (hash_key (cell j r))); simpl;
    now rewrite IH.
Qed.

Lemma merge_rows_equi_join (i j : nat) (left right : list (list value)) :
  flat_map (fun l => map (fun r => l ++ remove_nth j r)
                         (filter (fun r => same_key (cell i l) (cell j r)) right))
           left
  = equi_join_spec i j left right.
Proof.
  unfold equi_join_spec.
  induction left as [|l left IH]; simpl; [reflexivity|].
  rewrite filter_app, map_app, <- IH. f_equal. apply join_row_filter.
Qed.

Lemma key_at_0_app (l r : list value) :
  l <> [] -> key_at 0 (l ++ r) = key_at 0 l.
Proof.
  destruct l; [congruence | reflexivity].
Qed.

Lemma count_key_app (i : nat) (k : hkey) (a b : list (list value)) :
  count_key i k (a ++ b) = (count_key i k a + count_key i k b)%nat.
Proof.
  unfold count_key. now rewrite filter_app, length_app.
Qed.

Lemma count_key_cons (i : nat) (k : hkey) (r : list value) (l : list (list value)) :
  count_key i k (r :: l)
  = ((if has_key i k r then 1 else 0) + count_key i k l)%nat.
Proof.
  unfold count_key. cbn [filter]. now destruct (has_key i k r).
Qed.

Lemma count_key_join_row (k : hkey) (l : list value) (right : list (list value)) :
  l <> [] ->
  count_key 0 k (map (fun r => l ++ remove_nth 0 r)
                     (filter (fun r => same_key (cell 0 l) (cell 0 r)) right))
  = if has_key 0 k l then count_key 0 k right else 0%nat.
Proof.
  intros Hl. unfold count_key.
  assert (Hg : forall X,
             filter (has_key 0 k) (map (fun r => l ++ remove_nth 0 r) X)
             = if has_key 0 k l then map (fun r => l ++ remove_nth 0 r) X else []).
  { induction X as [|x X IHX]; cbn [map filter].
    - now destruct (has_key 0 k l).
    - unfold has_key at 1. rewrite (key_at_0_app l _ Hl). fold (has_key 0 k l).
      rewrite IHX. now destruct (has_key 0 k l). }
  rewrite Hg. destruct (has_key 0 k l) eqn:E; [|reflexivity].
  rewrite length_map. f_equal. apply filter_ext. intros r.
  unfold same_key, has_key, key_at in *. apply hkey_eqb_eq in E.
  rewrite <- E. apply hkey_eqb_sym.
Qed.

Lemma count_key_merge (k : hkey) (left right : list (list value)) :
  Forall (fun l => l <> []) left ->
  count_key 0 k
    (flat_map (fun l => map (fun r => l ++ remove_nth 0 r)
                            (filter (fun r => same_key (cell 0 l) (cell 0 r)) right))
              left)
  = (count_key 0 k left * count_key 0 k right)%nat.
Proof.
  induction 1 as [|l left Hl _ IH]; cbn [flat_map]; [reflexivity|].
  rewrite count_key_app, IH, (count_key_join_row k l right Hl).
  rewrite (count_key_cons 0 k l left).
  destruct (has_key 0 k l); lia.
Qed.

Lemma projection_rows_nonempty tag extras m :
  projection_of tag extras m -> Forall (fun l => l <> []) (rows m).
Proof.
  intros [_ H]. revert H. apply Forall_impl.
  intros [|x l]; simpl; [discriminate | congruence].
Qed.

Section Matcher.

Variable isdigit : N -> bool.
Variable nfkd : ustring -> ustring.
Variable float_repr : bool -> positive -> Z -> ustring.

(** The steps of [compare], one by one. *)
Lemma compare_inv data1 c1 e1 t1 data2 c2 e2 t2 res :
  compare isdigit nfkd float_repr data1 c1 e1 t1 data2 c2 e2 t2 = Some res ->
  exists m1 m2 um unm u2,
    merge_data isdigit float_repr dataset1 data1 c1 e1 t1 = Some m1
    /\ merge_data isdigit float_repr dataset2 data2 c2 e2 t2 = Some m2
    /\ merge m2 m1 normalized_key = Some (matches res)
    /\ select (fold_left (fun df col => assign df col float64 (fun _ => nan))
                         (renamed dataset1 e1)
                         (filter_rows
                            (fun r => negb (isin (cell 0 r) (map (cell 0) (rows m1))))
                            m2))
              (normalized_key :: renamed dataset2 e2 ++ renamed dataset1 e1)
       = Some (non_matches res)
    /\ get_unique_records (matches res) normalized_key = Some um
    /\ get_unique_records (non_matches res) normalized_key = Some unm
    /\ get_unique_records data2 c2 = Some u2
    /\ render nfkd float_repr um = Some (unique_matches res)
    /\ render nfkd float_repr unm = Some (unique_non_matches res)
    /\ statistics res
       = {| Stats.total_records := len data2;
            Stats.total_unique := len u2;
            Stats.unique_matches := len (unique_matches res);
            Stats.unique_non_matches := len (unique_non_matches res);
            Stats.duplicate_matches := len (matches res) - len (unique_matches res);
            Stats.duplicate_non_matches :=
              len (non_matches res) - len (unique_non_matches res) |}.
Proof.
  unfold compare. fold dataset1 dataset2.
  destruct (merge_data _ _ dataset1 _ _ _ _) as [m1|] eqn:H1; [|discriminate].
  destruct (merge_data _ _ dataset2 _ _ _ _) as [m2|] eqn:H2; [|discriminate].
  destruct (merge m2 m1 normalized_key) as [mt|] eqn:Hm; [|discriminate].
  rewrite (projection_key_loc _ _ _ (merge_data_shape _ _ _ _ _ _ _ _ H1)).
  rewrite (projection_key_loc _ _ _ (merge_data_shape _ _ _ _ _ _ _ _ H2)).
  fold nan. fold (renamed dataset1 e1). fold (renamed dataset2 e2).
  destruct (select _ _) as [nm|] eqn:Hs; [|discriminate].
  destruct (get_unique_records mt _) as [um|] eqn:Hum; [|discriminate].
  destruct (get_unique_records nm _) as [unm|] eqn:Hunm; [|discriminate].
  unfold render.
  destruct (apply_object_columns _ um) as [um'|] eqn:Aum; [|discriminate].
  destruct (apply_object_columns _ unm) as [unm'|] eqn:Aunm; [|discriminate].
  destruct (get_unique_records data2 _) as [u2|] eqn:Hu2; [|discriminate].
  intros [= <-]. simpl.
  exists m1, m2, um, unm, u2. rewrite Aum, Aunm.
  repeat split; try assumption; reflexivity.
Qed.

End Matcher.

(** *** Labels of the two sides never collide *)

Lemma tagged_neq_key (x : label) (tag : ustring) (c : N) :
  c <> 121%N -> x ++ tag ++ [c] <> normalized_key.
Proof.
  intros Hc H.
  change normalized_key with (u "normalized_ke" ++ [121%N]) in H.
  rewrite app_assoc in H. apply app_inj_tail in H. destruct H as [_ H].
  contradiction.
Qed.

Lemma dataset1_neq_key (x : label) : x ++ dataset1 <> normalized_key.
Proof.
  change dataset1 with (u "_dataset" ++ [49%N]).
  apply tagged_neq_key. discriminate.
Qed.

Lemma dataset1_neq_dataset2 (x y : label) : x ++ dataset1 <> y ++ dataset2.
Proof.
  change dataset1 with (u "_dataset" ++ [49%N]).
  change dataset2 with (u "_dataset" ++ [50%N]).
  rewrite !app_assoc. intros H. apply app_inj_tail in H.
  destruct H as [_ H]. discriminate.
Qed.

Lemma renamed_NoDup (tag : ustring) (l : list label) :
  NoDup l -> NoDup (renamed tag l).
Proof.
  unfold renamed. induction 1 as [|x l Hx _ IH]; simpl; constructor; auto.
  intros Hin. apply in_map_iff in Hin. destruct Hin as (y & E & Hy).
  apply app_inv_tail in E. now subst.
Qed.

Lemma columns_order_NoDup (e1 e2 : list label) :
  NoDup e1 -> NoDup e2 ->
  NoDup (normalized_key :: renamed dataset2 e2 ++ renamed dataset1 e1).
Proof.
  intros H1 H2. constructor.
  - intros Hin. apply in_app_or in Hin. unfold renamed in Hin.
    destruct Hin as [Hin|Hin]; apply in_map_iff in Hin;
      destruct Hin as (x & E & _).
    + revert E. change dataset2 with (u "_dataset" ++ [50%N]).
      apply tagged_neq_key. discriminate.
    + now apply dataset1_neq_key in E.
  - apply NoDup_app; auto using renamed_NoDup.
    unfold renamed. intros a Ha Hb.
    apply in_map_iff in Ha. destruct Ha as (x & <- & _).
    apply in_map_iff in Hb. destruct Hb as (y & E & _).
    now apply dataset1_neq_dataset2 in E.
Qed.

(** *** Adding the empty columns and ordering the columns *)

Lemma add_nan_columns (cs : list label) :
  forall df,
    NoDup cs -> (forall c, In c cs -> ~ In c (labels df)) ->
    labels (fold_left add_nan cs df) = labels df ++ cs
    /\ rows (fold_left add_nan cs df)
       = map (fun r => r ++ repeat nan (length cs)) (rows df).
Proof.
  induction cs as [|c cs IH]; intros df Hnd Hnew; simpl.
  - rewrite app_nil_r. split; [reflexivity|].
    rewrite <- (map_id (rows df)) at 1. apply map_ext. intros r.
    now rewrite app_nil_r.
  - inversion Hnd as [|? ? Hc Hnd']; subst.
    assert (Hloc : get_loc c (labels df) = None).
    { apply get_loc_None. apply Hnew. now left. }
    assert (Ha : labels (add_nan df c) = labels df ++ [c]
                 /\ rows (add_nan df c) = map (fun r => r ++ [nan]) (rows df)).
    { unfold add_nan, assign. rewrite Hloc. unfold labels. simpl.
      now rewrite map_app. }
    destruct Ha as [Hal Har].
    destruct (IH (add_nan df c) Hnd') as [Hl Hr].
    { intros c' Hc' Hin. rewrite Hal in Hin. apply in_app_or in Hin.
      destruct Hin as [Hin|[->|[]]]; [|contradiction].
      apply (Hnew c'); [now right | assumption]. }
    rewrite Hl, Hr, Hal, Har, <- app_assoc. split; [reflexivity|].
    rewrite map_map. apply map_ext. intros r. now rewrite <- app_assoc.
Qed.

Lemma get_loc_middle (n : label) (pre l : list label) :
  ~ In n pre -> get_loc n (pre ++ n :: l) = Some (length pre).
Proof.
  induction pre as [|p pre IH]; simpl; intros Hn.
  - now rewrite text_eqb_refl.
  - destruct (Text.eqb p n) eqn:E.
    + apply text_eqb_eq in E. exfalso. apply Hn. now left.
    + rewrite IH by tauto. reflexivity.
Qed.

Lemma get_locs_suffix (names : list label) :
  forall pre,
    NoDup (pre ++ names) ->
    get_locs names (pre ++ names) = Some (seq (length pre) (length names)).
Proof.
  induction names as [|n names IH]; intros pre Hnd; simpl; [reflexivity|].
  rewrite get_loc_middle.
  - replace (pre ++ n :: names) with ((pre ++ [n]) ++ names)
      by (now rewrite <- app_assoc).
    rewrite IH.
    + rewrite length_app. simpl. now rewrite Nat.add_1_r.
    + now rewrite <- app_assoc.
  - apply NoDup_remove_2 in Hnd. intros H. apply Hnd. apply in_or_app. now left.
Qed.

Lemma map_cell_seq (r : list value) :
  map (fun i => cell i r) (seq 0 (length r)) = r.
Proof.
  unfold cell. induction r as [|x r IH]; simpl; [reflexivity|].
  rewrite <- seq_shift, map_map. simpl. now rewrite IH.
Qed.

Lemma select_all (df out : DataFrame) :
  NoDup (labels df) ->
  Forall (fun r => length r = length (labels df)) (rows df) ->
  select df (labels df) = Some out ->
  rows out = rows df.
Proof.
  intros Hnd Hlen Hs. apply select_shape in Hs.
  destruct Hs as (_ & idx & Hidx & _ & Hr).
  pose proof (get_locs_suffix (labels df) [] Hnd) as Hg. simpl in Hg.
  rewrite Hg in Hidx. injection Hidx as <-.
  rewrite Hr. rewrite <- (map_id (rows df)) at 2.
  apply map_ext_in. intros r Hin.
  rewrite Forall_forall in Hlen. rewrite <- (Hlen r Hin). apply map_cell_seq.
Qed.

(** The frame of the rows without a match, before and after the first
    source's columns are added. *)
Lemma non_matches_shape (e1 e2 : list label) (m1 m2 out : DataFrame) :
  NoDup e1 -> NoDup e2 ->
  projection_of dataset2 e2 m2 ->
  select (fold_left add_nan (renamed dataset1 e1)
                    (filter_rows
                       (fun r => negb (isin (cell 0 r) (map (cell 0) (rows m1)))) m2))
         (normalized_key :: renamed dataset2 e2 ++ renamed dataset1 e1)
  = Some out ->
  labels out = normalized_key :: renamed dataset2 e2 ++ renamed dataset1 e1
  /\ rows out = map (fun r => r ++ repeat nan (length e1)) (unmatched m1 m2).
Proof.
  intros H1 H2 [Hl Hw] Hs.
  set (nm := filter_rows _ m2) in Hs.
  assert (Hnm : labels nm = normalized_key :: renamed dataset2 e2) by exact Hl.
  destruct (add_nan_columns (renamed dataset1 e1) nm) as [Hal Har].
  { now apply renamed_NoDup. }
  { intros c Hc Hin. rewrite Hnm in Hin. unfold renamed in Hc.
    apply in_map_iff in Hc. destruct Hc as (x & <- & _).
    destruct Hin as [E|Hin].
    - symmetry in E. now apply dataset1_neq_key in E.
    - apply in_map_iff in Hin. destruct Hin as (y & E & _).
      symmetry in E. now apply dataset1_neq_dataset2 in E. }
  rewrite Hnm in Hal. simpl in Hal.
  split; [apply select_shape in Hs; tauto|].
  rewrite <- Hal in Hs. apply select_all in Hs.
  - rewrite Hs, Har. unfold renamed. rewrite length_map.
    unfold nm, unmatched. simpl. f_equal. apply filter_ext. intros r.
    now rewrite isin_has_key.
  - rewrite Hal. now apply columns_order_NoDup.
  - rewrite Hal, Har. apply Forall_forall. intros r Hin.
    apply in_map_iff in Hin. destruct Hin as (r0 & <- & Hin).
    unfold nm in Hin. simpl in Hin. apply filter_In in Hin. destruct Hin as [Hin _].
    rewrite Forall_forall in Hw. simpl.
    rewrite !length_app, repeat_length, (Hw r0 Hin).
    unfold renamed. rewrite !length_map. reflexivity.
Qed.

(** *** The key column of a projection *)

Lemma get_loc_lt (name : label) (l : list label) :
  forall j, get_loc name l = Some j -> (j < length l)%nat.
Proof.
  induction l as [|c l IH]; simpl; intros j; [discriminate|].
  destruct (Text.eqb c name).
  - intros [= <-]. lia.
  - destruct (get_loc name l) as [j'|]; simpl; [|discriminate].
    intros [= <-]. specialize (IH j' eq_refl). lia.
Qed.

Lemma replace_nth_same_label (name : label) (d : dtype)
      (cols : list (label * dtype)) :
  forall j, get_loc name (map fst cols) = Some j ->
            map fst (replace_nth j (name, d) cols) = map fst cols.
Proof.
  induction cols as [|c cols IH]; simpl; intros j; [discriminate|].
  destruct (Text.eqb (fst c) name) eqn:E.
  - intros [= <-]. simpl. apply text_eqb_eq in E. now rewrite E.
  - destruct (get_loc name (map fst cols)) as [j'|]; simpl; [|discriminate].
    intros [= <-]. simpl. now rewrite IH.
Qed.

Lemma cell_replace_nth (x : value) (r : list value) :
  forall j, (j < length r)%nat -> cell j (replace_nth j x r) = x.
Proof.
  unfold cell. induction r as [|y r IH]; simpl; intros j Hj; [lia|].
  destruct j as [|j]; simpl; [reflexivity|]. apply IH. lia.
Qed.

(** After [df[name] = values] on a rectangular frame, the column [name]
    holds the assigned values. *)
Lemma assign_cell (df : DataFrame) (name : label) (d : dtype)
      (f : list value -> value) :
  rectangular df ->
  exists j g,
    get_loc name (labels (assign df name d f)) = Some j
    /\ rows (assign df name d f) = map g (rows df)
    /\ forall r, In r (rows df) -> cell j (g r) = f r.
Proof.
  intros Hrect. unfold rectangular in Hrect. rewrite Forall_forall in Hrect.
  unfold assign, labels.
  destruct (get_loc name (map fst (columns df))) as [j|] eqn:Hj; simpl.
  - exists j, (fun r => replace_nth j (f r) r).
    rewrite (replace_nth_same_label _ _ _ _ Hj).
    split; [assumption|]. split; [reflexivity|].
    intros r Hr. apply cell_replace_nth. rewrite (Hrect r Hr).
    apply get_loc_lt in Hj. now rewrite length_map in Hj.
  - exists (length (columns df)), (fun r => r ++ [f r]).
    rewrite map_app. simpl. split.
    + rewrite <- (length_map fst (columns df)). apply get_loc_middle.
      now apply get_loc_None.
    + split; [reflexivity|]. intros r Hr. unfold cell.
      rewrite <- (Hrect r Hr). apply nth_middle.
Qed.

(** The [normalized_key] column of a projection holds [normalize_value] of
    the chosen column, row by row, with the trims of the source when they
    are enabled. *)
Lemma merge_data_keys isdigit float_repr tag data selected_column
      additional_columns trim m :
  rectangular data ->
  merge_data isdigit float_repr tag data selected_column additional_columns trim
  = Some m ->
  exists i,
    get_loc selected_column (labels data) = Some i
    /\ map (cell 0) (rows m)
       = map (fun r => VStr (normalize_value isdigit float_repr (cell i r)
                               (if enable trim then trim_start trim else 0)
                               (if enable trim then trim_end trim else 0)))
             (rows data).
Proof.
  intros Hrect. unfold merge_data. rewrite normalize_column_key.
  destruct (get_loc selected_column (labels data)) as [i|]; [|discriminate].
  simpl option_map. cbv iota beta. intros H.
  exists i. split; [reflexivity|].
  set (f := fun r => VStr (normalize_value isdigit float_repr (cell i r)
                             (if enable trim then trim_start trim else 0)
                             (if enable trim then trim_end trim else 0))) in *.
  destruct (assign_cell data normalized_key object f Hrect)
    as (j & g & Hj & Hg & Hcell).
  assert (Hsel : forall names p,
             select (assign data normalized_key object f) (normalized_key :: names)
             = Some p ->
             map (cell 0) (rows p) = map f (rows data)).
  { intros names p Hs. apply select_shape in Hs.
    destruct Hs as (_ & idx & Hidx & _ & Hr). simpl in Hidx. rewrite Hj in Hidx.
    destruct (get_locs names _) as [idx'|]; [|discriminate].
    injection Hidx as <-. rewrite Hr, Hg, !map_map. simpl.
    apply map_ext_in. exact Hcell. }
  destruct additional_columns as [|e es].
  - now apply Hsel in H.
  - destruct (select _ _) as [p|] eqn:Hs; [|discriminate].
    apply set_labels_shape in H. destruct H as [_ Hr]. rewrite Hr.
    now apply Hsel in Hs.
Qed.

(** *** A worked comparison *)

Lemma example_floats_binary64 :
  forallb is_binary64 [float_42; float_minus_42; float_1; float_7] = true.
Proof. vm_compute. reflexivity. Qed.

Lemma NoDup_singleton {A : Type} (x : A) : NoDup [x].
Proof. constructor; [intros [] | constructor]. Qed.

(** C6. In every comparison, [matches] is the inner equi-join on
    [normalized_key] of the two full projections (one row per row of the
    source, no deduplication before the join), the second source's
    projection on the left and the first source's on the right, in the
    order of the left rows: its columns are the key, the second source's
    additional columns and the first source's, and a key that occurs [a]
    times on the left and [b] times on the right gives the [a * b] rows of
    the Cartesian product of those rows. *)
Theorem matches_is_equi_join :
  forall isdigit nfkd float_repr data1 c1 e1 t1 data2 c2 e2 t2 res,
    compare isdigit nfkd float_repr data1 c1 e1 t1 data2 c2 e2 t2 = Some res ->
    exists m1 m2,
      merge_data isdigit float_repr dataset1 data1 c1 e1 t1 = Some m1
      /\ merge_data isdigit float_repr dataset2 data2 c2 e2 t2 = Some m2
      /\ length (rows m1) = length (rows data1)
      /\ length (rows m2) = length (rows data2)
      /\ get_loc normalized_key (labels m1) = Some 0%nat
      /\ get_loc normalized_key (labels m2) = Some 0%nat
      /\ labels (matches res)
         = normalized_key :: renamed dataset2 e2 ++ renamed dataset1 e1
      /\ rows (matches res) = equi_join_spec 0 0 (rows m2) (rows m1)
      /\ forall k, count_key 0 k (rows (matches res))
                   = (count_key 0 k (rows m2) * count_key 0 k (rows m1))%nat.
Proof.
  intros isdigit nfkd float_repr data1 c1 e1 t1 data2 c2 e2 t2 res H.
  apply compare_inv in H.
  destruct H as (m1 & m2 & um & unm & u2 & H1 & H2 & Hm & _).
  pose proof (merge_data_shape _ _ _ _ _ _ _ _ H1) as P1.
  pose proof (merge_data_shape _ _ _ _ _ _ _ _ H2) as P2.
  exists m1, m2.
  pose proof (projection_key_loc _ _ _ P1) as K1.
  pose proof (projection_key_loc _ _ _ P2) as K2.
  pose proof (merge_data_length _ _ _ _ _ _ _ _ H1) as N1.
  pose proof (merge_data_length _ _ _ _ _ _ _ _ H2) as N2.
  unfold merge in Hm. rewrite K1, K2 in Hm. injection Hm as Hm.
  rewrite <- Hm. simpl.
  repeat split; try assumption.
  - destruct P1 as [L1 _], P2 as [L2 _]. unfold labels in *. simpl.
    rewrite map_app, L2. simpl. f_equal. f_equal.
    destruct (columns m1) as [|c cs]; [discriminate|].
    simpl in *. now injection L1.
  - exact (merge_rows_equi_join 0 0 (rows m2) (rows m1)).
  - intros k.
    exact (count_key_merge k (rows m2) (rows m1)
             (projection_rows_nonempty _ _ _ P2)).
Qed.

Lemma matches_is_equi_join_witness :
  exists res,
    example_compare = Some res
    /\ exists m1 m2,
        merge_data Reference.isdigit Reference.float_repr dataset1
                   example_data1 (u "id") [u "name"] no_trim = Some m1
        /\ merge_data Reference.isdigit Reference.float_repr dataset2
                      example_data2 (u "k") [u "v"] no_trim = Some m2
        /\ length (rows m1) = length (rows example_data1)
        /\ length (rows m2) = length (rows example_data2)
        /\ get_loc normalized_key (labels m1) = Some 0%nat
        /\ get_loc normalized_key (labels m2) = Some 0%nat
        /\ labels (matches res)
           = normalized_key :: renamed dataset2 [u "v"] ++ renamed dataset1 [u "name"]
        /\ rows (matches res) = equi_join_spec 0 0 (rows m2) (rows m1)
        /\ forall k, count_key 0 k (rows (matches res))
                     = (count_key 0 k (rows m2) * count_key 0 k (rows m1))%nat.
Proof.
  eexists. split; [vm_compute; reflexivity|].
  apply (matches_is_equi_join Reference.isdigit Reference.nfkd Reference.float_repr
           example_data1 (u "id") [u "name"] no_trim
           example_data2 (u "k") [u "v"] no_trim).
  vm_compute. reflexivity.
Defined.

(** C7. In every comparison (the additional columns of a source being
    distinct, as the column picker gives them), [non_matches] consists
    exactly of the rows of the second source's full projection whose
    [normalized_key] does not appear in the first source's full projection,
    in their order, each with the first source's additional columns added as
    missing numbers; its columns are [normalized_key], the second source's
    renamed additional columns, then the first source's. *)
Theorem non_matches_are_unmatched_rows :
  forall isdigit nfkd float_repr data1 c1 e1 t1 data2 c2 e2 t2 res,
    NoDup e1 -> NoDup e2 ->
    compare isdigit nfkd float_repr data1 c1 e1 t1 data2 c2 e2 t2 = Some res ->
    exists m1 m2,
      merge_data isdigit float_repr dataset1 data1 c1 e1 t1 = Some m1
      /\ merge_data isdigit float_repr dataset2 data2 c2 e2 t2 = Some m2
      /\ length (rows m1) = length (rows data1)
      /\ length (rows m2) = length (rows data2)
      /\ labels m1 = normalized_key :: renamed dataset1 e1
      /\ labels m2 = normalized_key :: renamed dataset2 e2
      /\ labels (non_matches res)
         = normalized_key :: renamed dataset2 e2 ++ renamed dataset1 e1
      /\ rows (non_matches res)
         = map (fun r => r ++ repeat nan (length e1)) (unmatched m1 m2).
Proof.
  intros isdigit nfkd float_repr data1 c1 e1 t1 data2 c2 e2 t2 res N1 N2 H.
  apply compare_inv in H.
  destruct H as (m1 & m2 & um & unm & u2 & H1 & H2 & _ & Hs & _).
  pose proof (merge_data_shape _ _ _ _ _ _ _ _ H1) as P1.
  pose proof (merge_data_shape _ _ _ _ _ _ _ _ H2) as P2.
  destruct (non_matches_shape e1 e2 m1 m2 _ N1 N2 P2 Hs) as [Hl Hr].
  exists m1, m2. repeat split; try assumption.
  - exact (merge_data_length _ _ _ _ _ _ _ _ H1).
  - exact (merge_data_length _ _ _ _ _ _ _ _ H2).
  - apply P1.
  - apply P2.
Qed.

Lemma non_matches_are_unmatched_rows_witness :
  exists res,
    example_compare = Some res
    /\ exists m1 m2,
        merge_data Reference.isdigit Reference.float_repr dataset1
                   example_data1 (u "id") [u "name"] no_trim = Some m1
        /\ merge_data Reference.isdigit Reference.float_repr dataset2
                      example_data2 (u "k") [u "v"] no_trim = Some m2
        /\ length (rows m1) = length (rows example_data1)
        /\ length (rows m2) = length (rows example_data2)
        /\ labels m1 = normalized_key :: renamed dataset1 [u "name"]
        /\ labels m2 = normalized_key :: renamed dataset2 [u "v"]
        /\ labels (non_matches res)
           = normalized_key :: renamed dataset2 [u "v"] ++ renamed dataset1 [u "name"]
        /\ rows (non_matches res)
           = map (fun r => r ++ repeat nan (length [u "name"])) (unmatched m1 m2).
Proof.
  eexists. split; [vm_compute; reflexivity|].
  apply (non_matches_are_unmatched_rows
           Reference.isdigit Reference.nfkd Reference.float_repr
           example_data1 (u "id") [u "name"] no_trim
           example_data2 (u "k") [u "v"] no_trim _
           (NoDup_singleton _) (NoDup_singleton _)).
  vm_compute. reflexivity.
Defined.

(** *** The two frames that are returned *)

Lemma apply_object_columns_length (f : value -> value) (df out : DataFrame) :
  apply_object_columns f df = Some out -> length (rows out) = length (rows df).
Proof.
  unfold apply_object_columns.
  destruct (apply_columns f (rows df) 0 (columns df)); [|discriminate].
  intros [= <-]. simpl. apply length_map.
Qed.

Lemma render_length nfkd float_repr (df out : DataFrame) :
  render nfkd float_repr df = Some out -> length (rows out) = length (rows df).
Proof.
  unfold render.
  destruct (apply_object_columns _ df) as [a|] eqn:E; [|discriminate].
  intros [= <-]. simpl.
  now rewrite length_map, (apply_object_columns_length _ _ _ E).
Qed.

Lemma len_render nfkd float_repr (df out : DataFrame) :
  render nfkd float_repr df = Some out -> len out = len df.
Proof.
  intros H. unfold len. now rewrite (render_length _ _ _ _ H).
Qed.

(** C8. For every comparison the statistics satisfy the six equations:
    [total_records] is the row count of the raw second table, [total_unique]
    the row count of its deduplication on the chosen column,
    [unique_matches] and [unique_non_matches] the row counts of the
    deduplications of [matches] and [non_matches] on [normalized_key] (which
    are the row counts of the two returned frames), and the two duplicate
    counts the row counts of [matches] and [non_matches] minus these. *)
Theorem statistics_equations :
  forall isdigit nfkd float_repr data1 c1 e1 t1 data2 c2 e2 t2 res,
    compare isdigit nfkd float_repr data1 c1 e1 t1 data2 c2 e2 t2 = Some res ->
    exists unique2 um unm,
      get_unique_records data2 c2 = Some unique2
      /\ get_unique_records (matches res) normalized_key = Some um
      /\ get_unique_records (non_matches res) normalized_key = Some unm
      /\ len (unique_matches res) = len um
      /\ len (unique_non_matches res) = len unm
      /\ Stats.total_records (statistics res) = len data2
      /\ Stats.total_unique (statistics res) = len unique2
      /\ Stats.unique_matches (statistics res) = len um
      /\ Stats.unique_non_matches (statistics res) = len unm
      /\ Stats.duplicate_matches (statistics res) = len (matches res) - len um
      /\ Stats.duplicate_non_matches (statistics res)
         = len (non_matches res) - len unm.
Proof.
  intros isdigit nfkd float_repr data1 c1 e1 t1 data2 c2 e2 t2 res H.
  apply compare_inv in H.
  destruct H as (m1 & m2 & um & unm & u2 & _ & _ & _ & _
                 & Hum & Hunm & Hu2 & Eum & Eunm & Est).
  exists u2, um, unm. rewrite Est. simpl.
  rewrite (len_render _ _ _ _ Eum), (len_render _ _ _ _ Eunm).
  repeat split; assumption.
Qed.

Lemma statistics_equations_witness :
  exists res,
    example_compare = Some res
    /\ exists unique2 um unm,
        get_unique_records example_data2 (u "k") = Some unique2
        /\ get_unique_records (matches res) normalized_key = Some um
        /\ get_unique_records (non_matches res) normalized_key = Some unm
        /\ len (unique_matches res) = len um
        /\ len (unique_non_matches res) = len unm
        /\ Stats.total_records (statistics res) = len example_data2
        /\ Stats.total_unique (statistics res) = len unique2
        /\ Stats.unique_matches (statistics res) = len um
        /\ Stats.unique_non_matches (statistics res) = len unm
        /\ Stats.duplicate_matches (statistics res) = len (matches res) - len um
        /\ Stats.duplicate_non_matches (statistics res)
           = len (non_matches res) - len unm.
Proof.
  eexists. split; [vm_compute; reflexivity|].
  apply (statistics_equations Reference.isdigit Reference.nfkd Reference.float_repr
           example_data1 (u "id") [u "name"] no_trim
           example_data2 (u "k") [u "v"] no_trim).
  vm_compute. reflexivity.
Defined.










(** *** Every key of the second source falls on one side *)

Lemma has_key_In (i : nat) (k : hkey) (l : list (list value)) :
  existsb (has_key i k) l = true <-> In k (map (key_at i) l).
Proof.
  rewrite existsb_exists, in_map_iff. unfold has_key.
  split; intros (r & H1 & H2).
  - exists r. apply hkey_eqb_eq in H2. auto.
  - exists r. split; [assumption|]. now apply hkey_eqb_eq.
Qed.

Lemma In_keys_count (i : nat) (k : hkey) (l : list (list value)) :
  In k (map (key_at i) l) <-> (0 < count_key i k l)%nat.
Proof.
  induction l as [|r l IH]; simpl.
  - unfold count_key. simpl. lia.
  - rewrite count_key_cons. unfold has_key.
    destruct (hkey_eqb (key_at i r) k) eqn:E.
    + apply hkey_eqb_eq in E. split; [lia | auto].
    + apply hkey_eqb_neq in E. rewrite IH. simpl. tauto.
Qed.

Lemma first_wins_keys (i : nat) (l : list (list value)) :
  forall seen,
    NoDup (map (key_at i) (first_wins seen i l))
    /\ forall k, In k (map (key_at i) (first_wins seen i l))
                 <-> In k (map (key_at i) l) /\ ~ In k seen.
Proof.
  induction l as [|r l IH]; intros seen; simpl.
  - split; [constructor | tauto].
  - fold (key_at i r).
    destruct (existsb (hkey_eqb (key_at i r)) seen) eqn:Hseen.
    + apply seen_In in Hseen. destruct (IH seen) as [Hnd Hin].
      split; [assumption|]. intros k. rewrite Hin.
      split; [tauto|]. intros [[<-|H] Hn]; tauto.
    + assert (Hns : ~ In (key_at i r) seen).
      { intros H. apply seen_In in H. congruence. }
      destruct (IH (key_at i r :: seen)) as [Hnd Hin]. simpl. split.
      * constructor; [|assumption]. rewrite Hin. simpl. tauto.
      * intros k. rewrite Hin. simpl.
        destruct (hkey_eq_dec (key_at i r) k) as [<-|Hne]; tauto.
Qed.

Lemma first_wins_length (i : nat) (l : list (list value)) :
  length (first_wins [] i l) = distinct_keys i l.
Proof.
  unfold distinct_keys.
  rewrite <- (length_map (key_at i) (first_wins [] i l)).
  apply Permutation_length, NoDup_Permutation.
  - apply first_wins_keys.
  - apply NoDup_nodup.
  - intros k. rewrite nodup_In. destruct (first_wins_keys i l []) as [_ H].
    rewrite H. simpl. tauto.
Qed.

Lemma distinct_split (a b c : list hkey) (P : hkey -> Prop) :
  (forall k, P k \/ ~ P k) ->
  (forall k, In k a <-> In k c /\ P k) ->
  (forall k, In k b <-> In k c /\ ~ P k) ->
  (length (nodup hkey_eq_dec a) + length (nodup hkey_eq_dec b))%nat
  = length (nodup hkey_eq_dec c).
Proof.
  intros Hdec Ha Hb. rewrite <- length_app.
  apply Permutation_length, NoDup_Permutation.
  - apply NoDup_app; try apply NoDup_nodup.
    intros k H1 H2. rewrite nodup_In in H1, H2.
    apply Ha in H1. apply Hb in H2. tauto.
  - apply NoDup_nodup.
  - intros k. rewrite in_app_iff, !nodup_In, Ha, Hb.
    destruct (Hdec k); tauto.
Qed.

Lemma get_loc_0 (n : label) (l : list label) :
  get_loc n l = Some 0%nat -> exists l', l = n :: l'.
Proof.
  destruct l as [|c l]; simpl; [discriminate|].
  destruct (Text.eqb c n) eqn:E.
  - apply text_eqb_eq in E. subst. eauto.
  - destruct (get_loc n l); discriminate.
Qed.

Lemma add_nan_keeps_key (df : DataFrame) (c : label) :
  c <> normalized_key ->
  get_loc normalized_key (labels df) = Some 0%nat ->
  Forall (fun r => r <> []) (rows df) ->
  get_loc normalized_key (labels (add_nan df c)) = Some 0%nat
  /\ Forall (fun r => r <> []) (rows (add_nan df c))
  /\ map (key_at 0) (rows (add_nan df c)) = map (key_at 0) (rows df).
Proof.
  intros Hc Hk Hne. destruct (get_loc_0 _ _ Hk) as [l' Hl].
  unfold add_nan, assign, labels in *.
  destruct (columns df) as [|c0 cols] eqn:Hcols; [discriminate|].
  simpl in Hl. injection Hl as Hc0 _. simpl.
  destruct (Text.eqb (fst c0) c) eqn:E.
  { apply text_eqb_eq in E. congruence. }
  destruct (get_loc c (map fst cols)) as [j|]; simpl.
  - rewrite Hc0, text_eqb_refl. split; [reflexivity|].
    rewrite map_map. split.
    + apply Forall_forall. intros r Hin. apply in_map_iff in Hin.
      destruct Hin as (r0 & <- & Hin). rewrite Forall_forall in Hne.
      specialize (Hne r0 Hin). destruct r0; [congruence | discriminate].
    + apply map_ext_in. intros r Hin. rewrite Forall_forall in Hne.
      specialize (Hne r Hin). destruct r; [congruence | reflexivity].
  - rewrite Hc0, text_eqb_refl. split; [reflexivity|].
    rewrite map_map. split.
    + apply Forall_forall. intros r Hin. apply in_map_iff in Hin.
      destruct Hin as (r0 & <- & Hin). destruct r0; discriminate.
    + apply map_ext_in. intros r Hin. rewrite Forall_forall in Hne.
      specialize (Hne r Hin). destruct r; [congruence | reflexivity].
Qed.

Lemma add_nan_fold_keeps_key (cs : list label) :
  forall df,
    (forall c, In c cs -> c <> normalized_key) ->
    get_loc normalized_key (labels df) = Some 0%nat ->
    Forall (fun r => r <> []) (rows df) ->
    get_loc normalized_key (labels (fold_left add_nan cs df)) = Some 0%nat
    /\ map (key_at 0) (rows (fold_left add_nan cs df)) = map (key_at 0) (rows df).
Proof.
  induction cs as [|c cs IH]; intros df Hcs Hk Hne; simpl; [auto|].
  destruct (add_nan_keeps_key df c) as (Hk' & Hne' & Hkeys); auto.
  { apply Hcs. now left. }
  destruct (IH (add_nan df c)) as [Hk'' Hkeys'']; auto.
  { intros c' Hc'. apply Hcs. now right. }
  split; [assumption | congruence].
Qed.

Lemma select_keeps_key (df out : DataFrame) (names : list label) :
  get_loc normalized_key (labels df) = Some 0%nat ->
  select df (normalized_key :: names) = Some out ->
  map (key_at 0) (rows out) = map (key_at 0) (rows df).
Proof.
  intros Hk Hs. apply select_shape in Hs.
  destruct Hs as (_ & idx & Hidx & _ & Hr).
  simpl in Hidx. rewrite Hk in Hidx.
  destruct (get_locs names (labels df)) as [idx'|]; [|discriminate].
  injection Hidx as <-. rewrite Hr, map_map. reflexivity.
Qed.

Lemma non_matches_keys (e1 e2 : list label) (m1 m2 out : DataFrame) :
  projection_of dataset2 e2 m2 ->
  select (fold_left add_nan (renamed dataset1 e1)
                    (filter_rows
                       (fun r => negb (isin (cell 0 r) (map (cell 0) (rows m1)))) m2))
         (normalized_key :: renamed dataset2 e2 ++ renamed dataset1 e1)
  = Some out ->
  normalized_keys out = map (key_at 0) (unmatched m1 m2).
Proof.
  intros P2 Hs. set (nm := filter_rows _ m2) in Hs.
  destruct (add_nan_fold_keeps_key (renamed dataset1 e1) nm) as [Hk Hkeys].
  - intros c Hc. unfold renamed in Hc. apply in_map_iff in Hc.
    destruct Hc as (x & <- & _). apply dataset1_neq_key.
  - exact (projection_key_loc _ _ _ P2).
  - pose proof (projection_rows_nonempty _ _ _ P2) as Hne.
    rewrite Forall_forall in Hne. apply Forall_forall. intros r Hin.
    unfold nm in Hin. simpl in Hin. apply filter_In in Hin. now apply Hne.
  - unfold normalized_keys. rewrite (select_keeps_key _ _ _ Hk Hs), Hkeys.
    unfold nm, unmatched. simpl. f_equal. apply filter_ext. intros r.
    now rewrite isin_has_key.
Qed.

Lemma unmatched_keys (m1 m2 : DataFrame) (k : hkey) :
  In k (map (key_at 0) (unmatched m1 m2))
  <-> In k (normalized_keys m2) /\ ~ In k (normalized_keys m1).
Proof.
  unfold unmatched, normalized_keys. split.
  - intros H. apply in_map_iff in H. destruct H as (r & <- & Hin).
    apply filter_In in Hin. destruct Hin as [Hin Hp].
    split; [now apply in_map|]. intros H. apply has_key_In in H.
    rewrite H in Hp. discriminate.
  - intros [H Hn]. apply in_map_iff in H. destruct H as (r & <- & Hin).
    apply in_map. apply filter_In. split; [assumption|].
    destruct (existsb _ (rows m1)) eqn:E; [|reflexivity].
    apply has_key_In in E. contradiction.
Qed.

Lemma merge_projections (e1 e2 : list label) (m1 m2 mt : DataFrame) :
  projection_of dataset1 e1 m1 -> projection_of dataset2 e2 m2 ->
  merge m2 m1 normalized_key = Some mt ->
  get_loc normalized_key (labels mt) = Some 0%nat
  /\ forall k, count_key 0 k (rows mt)
               = (count_key 0 k (rows m2) * count_key 0 k (rows m1))%nat.
Proof.
  intros P1 P2 Hm. unfold merge in Hm.
  rewrite (projection_key_loc _ _ _ P1), (projection_key_loc _ _ _ P2) in Hm.
  injection Hm as Hm. rewrite <- Hm. split.
  - destruct P2 as [L2 _]. unfold labels in *. simpl.
    rewrite map_app, L2. apply get_loc_head.
  - intros k. exact (count_key_merge k (rows m2) (rows m1)
                       (projection_rows_nonempty _ _ _ P2)).
Qed.

Lemma unique_records_length (df out : DataFrame) :
  get_loc normalized_key (labels df) = Some 0%nat ->
  get_unique_records df normalized_key = Some out ->
  length (rows out) = distinct_keys 0 (rows df).
Proof.
  intros Hk. unfold get_unique_records, drop_duplicates. rewrite Hk.
  intros [= <-]. simpl. apply first_wins_length.
Qed.

(** C10. For every comparison, each [normalized_key] value that occurs in
    the second source's projection occurs in exactly one of [matches] and
    [non_matches]: in [matches] if and only if it also occurs in the first
    source's projection, in [non_matches] if and only if it does not. So the
    statistics [unique_matches] and [unique_non_matches] add up to the number
    of distinct [normalized_key] values of the second source's projection. *)
Theorem keys_fall_on_one_side :
  forall isdigit nfkd float_repr data1 c1 e1 t1 data2 c2 e2 t2 res,
    compare isdigit nfkd float_repr data1 c1 e1 t1 data2 c2 e2 t2 = Some res ->
    exists m1 m2,
      merge_data isdigit float_repr dataset1 data1 c1 e1 t1 = Some m1
      /\ merge_data isdigit float_repr dataset2 data2 c2 e2 t2 = Some m2
      /\ (forall k,
             In k (normalized_keys m2) ->
             (In k (normalized_keys (matches res)) <-> In k (normalized_keys m1))
             /\ (In k (normalized_keys (non_matches res))
                 <-> ~ In k (normalized_keys m1))
             /\ (In k (normalized_keys (matches res))
                 \/ In k (normalized_keys (non_matches res)))
             /\ ~ (In k (normalized_keys (matches res))
                   /\ In k (normalized_keys (non_matches res))))
      /\ Stats.unique_matches (statistics res)
         + Stats.unique_non_matches (statistics res)
         = Z.of_nat (distinct_keys 0 (rows m2)).
Proof.
  intros isdigit nfkd float_repr data1 c1 e1 t1 data2 c2 e2 t2 res H.
  apply compare_inv in H.
  destruct H as (m1 & m2 & um & unm & u2 & H1 & H2 & Hm & Hs
                 & Hum & Hunm & _ & Eum & Eunm & Est).
  pose proof (merge_data_shape _ _ _ _ _ _ _ _ H1) as P1.
  pose proof (merge_data_shape _ _ _ _ _ _ _ _ H2) as P2.
  destruct (merge_projections _ _ _ _ _ P1 P2 Hm) as [Kmt Hcount].
  pose proof (non_matches_keys _ _ _ _ _ P2 Hs) as Hnk.
  assert (Knm : get_loc normalized_key (labels (non_matches res)) = Some 0%nat).
  { apply select_shape in Hs. destruct Hs as [Hl _]. rewrite Hl.
    apply get_loc_head. }
  assert (Hin_m : forall k, In k (normalized_keys (matches res))
                            <-> In k (normalized_keys m2)
                                /\ In k (normalized_keys m1)).
  { intros k. unfold normalized_keys. rewrite !In_keys_count, Hcount.
    split; [|intros [? ?]; now apply Nat.mul_pos_pos].
    intros Hp. destruct (count_key 0 k (rows m2)), (count_key 0 k (rows m1)); lia. }
  assert (Hin_n : forall k, In k (normalized_keys (non_matches res))
                            <-> In k (normalized_keys m2)
                                /\ ~ In k (normalized_keys m1)).
  { intros k. rewrite Hnk. apply unmatched_keys. }
  assert (Hdec : forall k, In k (normalized_keys m1) \/ ~ In k (normalized_keys m1)).
  { intros k. destruct (in_dec hkey_eq_dec k (normalized_keys m1)); tauto. }
  exists m1, m2. split; [assumption|]. split; [assumption|]. split.
  - intros k Hk. rewrite Hin_m, Hin_n. destruct (Hdec k); tauto.
  - rewrite Est. simpl.
    rewrite (len_render _ _ _ _ Eum), (len_render _ _ _ _ Eunm). unfold len.
    rewrite (unique_records_length _ _ Kmt Hum),
            (unique_records_length _ _ Knm Hunm), <- Nat2Z.inj_add.
    f_equal. unfold distinct_keys.
    apply (distinct_split _ _ _ (fun k => In k (normalized_keys m1)) Hdec).
    + exact Hin_m.
    + exact Hin_n.
Qed.

Lemma keys_fall_on_one_side_witness :
  exists res,
    example_compare = Some res
    /\ exists m1 m2,
        merge_data Reference.isdigit Reference.float_repr dataset1
                   example_data1 (u "id") [u "name"] no_trim = Some m1
        /\ merge_data Reference.isdigit Reference.float_repr dataset2
                      example_data2 (u "k") [u "v"] no_trim = Some m2
        /\ (forall k,
               In k (normalized_keys m2) ->
               (In k (normalized_keys (matches res)) <-> In k (normalized_keys m1))
               /\ (In k (normalized_keys (non_matches res))
                   <-> ~ In k (normalized_keys m1))
               /\ (In k (normalized_keys (matches res))
                   \/ In k (normalized_keys (non_matches res)))
               /\ ~ (In k (normalized_keys (matches res))
                     /\ In k (normalized_keys (non_matches res))))
        /\ Stats.unique_matches (statistics res)
           + Stats.unique_non_matches (statistics res)
           = Z.of_nat (distinct_keys 0 (rows m2)).
Proof.
  eexists. split; [vm_compute; reflexivity|].
  apply (keys_fall_on_one_side Reference.isdigit Reference.nfkd Reference.float_repr
           example_data1 (u "id") [u "name"] no_trim
           example_data2 (u "k") [u "v"] no_trim).
  vm_compute. reflexivity.
Defined.

(** ** Accent stripping *)

Lemma decode_encode_ascii (s : ustring) :
  decode_ascii (encode_ascii_ignore s) = Some (filter is_ascii s).
Proof.
  unfold encode_ascii_ignore.
  induction s as [|c s IH]; simpl; [reflexivity|].
  destruct (is_ascii c) eqn:Hc; [|exact IH].
  destruct (Byte.of_N c) as [b|] eqn:Hb.
  - simpl. apply Byte.to_of_N in Hb. rewrite Hb, Hc, IH. reflexivity.
  - apply Byte.of_N_None_iff in Hb. unfold is_ascii in Hc.
    apply N.ltb_lt in Hc. lia.
Qed.

Lemma remove_accents_text nfkd (s : ustring) :
  remove_accents nfkd (VStr s) = VStr (filter is_ascii (nfkd s)).
Proof.
  unfold remove_accents, remove_accents_try.
  now rewrite decode_encode_ascii.
Qed.



(** *** What [Series.apply] infers *)


(** The scan looks at the kind of a cell only, and [remove_accents] keeps
    the kind. *)
Lemma scan_objects_remove_accents nfkd (col : list value) :
  forall seen,
    scan_objects seen (map (remove_accents nfkd) col) = scan_objects seen col.
Proof.
  induction col as [|v col IH]; intros seen; [reflexivity|].
  destruct v as [|s|n|f]; cbn [map].
  - cbn. apply IH.
  - rewrite remove_accents_text. reflexivity.
  - change (remove_accents nfkd (VInt n)) with (VInt n). cbn [scan_objects].
    destruct (float_of_int n); [|reflexivity].
    cbn [null_]. destruct (null_ seen); [apply IH|].
    destruct (_ || _ || _); [reflexivity | apply IH].
  - change (remove_accents nfkd (VFloat f)) with (VFloat f).
    destruct f; cbn [scan_objects]; apply IH.
Qed.

Lemma maybe_convert_objects_remove_accents nfkd (col : list value) :
  maybe_convert_objects (map (remove_accents nfkd) col) = maybe_convert_objects col.
Proof.
  unfold maybe_convert_objects. now rewrite scan_objects_remove_accents.
Qed.












(** An object column whose kept rows hold a number and a missing value, and
    no text, is returned as floats. *)
Lemma mixed_column_returned_as_floats :
  option_map (fun res => (rows (matches res), rows (unique_matches res)))
             mixed_compare
  = Some ([[VStr (u "1"); VInt 5];
           [VStr (u "2"); VNone];
           [VStr (u "2"); VStr (u "a")]],
          [[VStr (u "1"); VStr (u "5.0")];
           [VStr (u "2"); VStr (u "nan")]]).
Proof. vm_compute. reflexivity. Qed.


(** ** The scenario with leading zeros *)

Lemma Forall_firstn {A : Type} (P : A -> Prop) (n : nat) :
  forall l, Forall P l -> Forall P (firstn n l).
Proof.
  induction n as [|n IH]; intros l H; simpl; [constructor|].
  destruct H; constructor; auto.
Qed.

Lemma Forall_skipn {A : Type} (P : A -> Prop) (n : nat) :
  forall l, Forall P l -> Forall P (skipn n l).
Proof.
  induction n as [|n IH]; intros l H; simpl; [assumption|].
  destruct H; [constructor | auto].
Qed.

Section AsciiKeys.

Variable isdigit : N -> bool.
Variable nfkd : ustring -> ustring.
Variable float_repr : bool -> positive -> Z -> ustring.

Hypothesis isdigit_ascii :
  forall c, is_ascii c = true -> isdigit c = is_ascii_digit c.

Lemma filter_isdigit_ascii (s : ustring) :
  Forall (fun c => is_ascii c = true) s ->
  filter isdigit s = filter is_ascii_digit s.
Proof.
  intros H. apply filter_ext_in. intros c Hc.
  rewrite Forall_forall in H. auto.
Qed.

Lemma normalize_value_ascii (v : value) (ts te : Z) :
  ascii_cell float_repr v ->
  normalize_value isdigit float_repr v ts te
  = normalize_value is_ascii_digit float_repr v ts te.
Proof.
  unfold ascii_cell. intros H. unfold normalize_value, normalize_value_try.
  destruct (isna v); [reflexivity|].
  set (s1 := if ts >? 0 then slice_from ts (py_str float_repr v)
             else py_str float_repr v).
  assert (H1 : Forall (fun c => is_ascii c = true) s1).
  { unfold s1, slice_from. destruct (ts >? 0); auto using Forall_skipn. }
  set (s2 := if te >? 0
             then (if te <? Text.len s1 then slice_until_last te s1 else [])
             else s1).
  assert (H2 : Forall (fun c => is_ascii c = true) s2).
  { unfold s2, slice_until_last. destruct (te >? 0); [|assumption].
    destruct (te <? Text.len s1); auto using Forall_firstn. }
  rewrite (filter_isdigit_ascii s2 H2), (filter_isdigit_ascii _ H).
  reflexivity.
Qed.

Lemma normalize_column_ascii (df : DataFrame) (c : label) (new : option label)
      (ts te : Z) :
  Forall (Forall (ascii_cell float_repr)) (rows df) ->
  normalize_column isdigit float_repr df c new ts te
  = normalize_column is_ascii_digit float_repr df c new ts te.
Proof.
  intros H. unfold normalize_column.
  destruct (get_loc c (labels df)) as [i|]; [|reflexivity].
  assert (Hcell : forall r, In r (rows df) ->
                            VStr (normalize_value isdigit float_repr (cell i r) ts te)
                            = VStr (normalize_value is_ascii_digit float_repr
                                                    (cell i r) ts te)).
  { intros r Hr. f_equal. apply normalize_value_ascii.
    rewrite Forall_forall in H. specialize (H r Hr). unfold cell.
    destruct (nth_in_or_default i r VNone) as [Hin | ->].
    - rewrite Forall_forall in H. auto.
    - unfold ascii_cell. vm_compute. repeat constructor. }
  assert (Hassign : forall name,
             assign df name object
                    (fun r => VStr (normalize_value isdigit float_repr (cell i r) ts te))
             = assign df name object
                      (fun r => VStr (normalize_value is_ascii_digit float_repr
                                                      (cell i r) ts te))).
  { intros name. unfold assign.
    destruct (get_loc name (labels df)); f_equal; apply map_ext_in;
      intros r Hr; now rewrite Hcell. }
  destruct new as [[|x n]|]; now rewrite Hassign.
Qed.

Lemma merge_data_ascii (tag : ustring) (df : DataFrame) (c : label)
      (extras : list label) (trim : trim_options) :
  Forall (Forall (ascii_cell float_repr)) (rows df) ->
  merge_data isdigit float_repr tag df c extras trim
  = merge_data is_ascii_digit float_repr tag df c extras trim.
Proof.
  intros H. unfold merge_data. now rewrite normalize_column_ascii.
Qed.

(** On frames of ASCII text and integers the comparison is the one run with
    the test for 0-9. *)
Lemma compare_ascii data1 c1 e1 t1 data2 c2 e2 t2 :
  Forall (Forall (ascii_cell float_repr)) (rows data1) ->
  Forall (Forall (ascii_cell float_repr)) (rows data2) ->
  compare isdigit nfkd float_repr data1 c1 e1 t1 data2 c2 e2 t2
  = compare is_ascii_digit nfkd float_repr data1 c1 e1 t1 data2 c2 e2 t2.
Proof.
  intros H1 H2. unfold compare.
  now rewrite (merge_data_ascii _ data1), (merge_data_ascii _ data2).
Qed.

End AsciiKeys.

(** *** The counts do not depend on the decomposition *)

Lemma apply_columns_types nfkd nfkd' (rows : list (list value)) :
  forall cols j,
    option_map (map (fun x : label * dtype * (value -> value) => fst x))
               (apply_columns (remove_accents nfkd) rows j cols)
    = option_map (map (fun x : label * dtype * (value -> value) => fst x))
                 (apply_columns (remove_accents nfkd') rows j cols).
Proof.
  induction cols as [|c cols IH]; intros j; [reflexivity|]. simpl.
  specialize (IH (S j)).
  destruct (is_object (snd c)).
  - unfold series_apply. rewrite !maybe_convert_objects_remove_accents.
    destruct (maybe_convert_objects _) as [d|]; [|reflexivity].
    destruct (apply_columns (remove_accents nfkd) rows (S j) cols),
      (apply_columns (remove_accents nfkd') rows (S j) cols);
      simpl in *; congruence.
  - destruct (apply_columns (remove_accents nfkd) rows (S j) cols),
      (apply_columns (remove_accents nfkd') rows (S j) cols);
      simpl in *; congruence.
Qed.

Lemma apply_object_columns_rows nfkd nfkd' (df : DataFrame) :
  option_map (fun out => length (rows out))
             (apply_object_columns (remove_accents nfkd) df)
  = option_map (fun out => length (rows out))
               (apply_object_columns (remove_accents nfkd') df).
Proof.
  unfold apply_object_columns.
  pose proof (apply_columns_types nfkd nfkd' (rows df) (columns df) 0) as H.
  destruct (apply_columns (remove_accents nfkd) _ _ _),
    (apply_columns (remove_accents nfkd') _ _ _);
    simpl in *; try discriminate; [|reflexivity].
  now rewrite !length_map.
Qed.

(** The statistics and the frame of the non-matches are the same whatever
    the decomposition used by [remove_accents]. *)
Lemma compare_counts_any_nfkd isdigit nfkd nfkd' float_repr
      data1 c1 e1 t1 data2 c2 e2 t2 :
  option_map (fun res => (statistics res, rows (non_matches res)))
             (compare isdigit nfkd float_repr data1 c1 e1 t1 data2 c2 e2 t2)
  = option_map (fun res => (statistics res, rows (non_matches res)))
               (compare isdigit nfkd' float_repr data1 c1 e1 t1 data2 c2 e2 t2).
Proof.
  unfold compare.
  destruct (merge_data _ _ _ data1 _ _ _) as [m1|]; [|reflexivity].
  destruct (merge_data _ _ _ data2 _ _ _) as [m2|]; [|reflexivity].
  destruct (merge m2 m1 normalized_key) as [mt|]; [|reflexivity].
  destruct (get_loc normalized_key (labels m1)) as [k1|]; [|reflexivity].
  destruct (get_loc normalized_key (labels m2)) as [k2|]; [|reflexivity].
  destruct (select _ _) as [nm|]; [|reflexivity].
  destruct (get_unique_records mt _) as [um|]; [|reflexivity].
  destruct (get_unique_records nm _) as [unm|]; [|reflexivity].
  pose proof (apply_object_columns_rows nfkd nfkd' um) as Hum.
  pose proof (apply_object_columns_rows nfkd nfkd' unm) as Hunm.
  destruct (apply_object_columns (remove_accents nfkd) um) as [a|],
    (apply_object_columns (remove_accents nfkd') um) as [a'|];
    simpl in Hum; try discriminate; [|reflexivity].
  destruct (apply_object_columns (remove_accents nfkd) unm) as [b|],
    (apply_object_columns (remove_accents nfkd') unm) as [b'|];
    simpl in Hunm; try discriminate; [|reflexivity].
  destruct (get_unique_records data2 _) as [u2|]; [|reflexivity].
  injection Hum as Hum. injection Hunm as Hunm.
  simpl. unfold len. simpl. rewrite !length_map, Hum, Hunm. reflexivity.
Qed.

(** C3 (as amended). For table1 keys ["001","002"] and table2 keys
    ["1","2","3"] (no trimming, no extra columns), [normalize_value] keeps
    the leading zeros, so [compare] yields 0 unique matches and 3 unique
    non-matches (the keys 1, 2 and 3), with 0 duplicate matches and 0
    duplicate non-matches. When the keys of table1 are the numbers 1 and 2,
    it yields 2 unique matches, 1 unique non-match (the key 3) and 0
    duplicates. *)
Theorem scenario_leading_zeros :
  forall isdigit nfkd float_repr,
    (forall c, is_ascii c = true -> isdigit c = is_ascii_digit c) ->
    option_map (fun res => (statistics res, rows (non_matches res)))
               (compare isdigit nfkd float_repr
                        scenario_table1 (u "key") [] no_trim
                        scenario_table2 (u "key") [] no_trim)
    = Some ({| Stats.total_records := 3;
               Stats.total_unique := 3;
               Stats.unique_matches := 0;
               Stats.unique_non_matches := 3;
               Stats.duplicate_matches := 0;
               Stats.duplicate_non_matches := 0 |},
            [[VStr (u "1")]; [VStr (u "2")]; [VStr (u "3")]])
    /\ option_map (fun res => (statistics res, rows (non_matches res)))
                  (compare isdigit nfkd float_repr
                           scenario_table1_numbers (u "key") [] no_trim
                           scenario_table2 (u "key") [] no_trim)
       = Some ({| Stats.total_records := 3;
                  Stats.total_unique := 3;
                  Stats.unique_matches := 2;
                  Stats.unique_non_matches := 1;
                  Stats.duplicate_matches := 0;
                  Stats.duplicate_non_matches := 0 |},
               [[VStr (u "3")]]).
Proof.
  intros isdigit nfkd float_repr Hascii.
  assert (Hcells : forall t, In t [scenario_table1; scenario_table1_numbers;
                                   scenario_table2] ->
                             Forall (Forall (ascii_cell float_repr)) (rows t)).
  { intros t Ht. simpl in Ht.
    destruct Ht as [<-|[<-|[<-|[]]]]; repeat constructor. }
  split.
  - rewrite (compare_ascii isdigit nfkd float_repr Hascii);
      [|apply Hcells; simpl; tauto ..].
    rewrite (compare_counts_any_nfkd _ nfkd (fun s => s)).
    vm_compute. reflexivity.
  - rewrite (compare_ascii isdigit nfkd float_repr Hascii);
      [|apply Hcells; simpl; tauto ..].
    rewrite (compare_counts_any_nfkd _ nfkd (fun s => s)).
    vm_compute. reflexivity.
Qed.

Lemma scenario_leading_zeros_witness :
  option_map (fun res => (statistics res, rows (non_matches res)))
             (compare Reference.isdigit Reference.nfkd Reference.float_repr
                      scenario_table1 (u "key") [] no_trim
                      scenario_table2 (u "key") [] no_trim)
  = Some ({| Stats.total_records := 3;
             Stats.total_unique := 3;
             Stats.unique_matches := 0;
             Stats.unique_non_matches := 3;
             Stats.duplicate_matches := 0;
             Stats.duplicate_non_matches := 0 |},
          [[VStr (u "1")]; [VStr (u "2")]; [VStr (u "3")]])
  /\ option_map (fun res => (statistics res, rows (non_matches res)))
                (compare Reference.isdigit Reference.nfkd Reference.float_repr
                         scenario_table1_numbers (u "key") [] no_trim
                         scenario_table2 (u "key") [] no_trim)
     = Some ({| Stats.total_records := 3;
                Stats.total_unique := 3;
                Stats.unique_matches := 2;
                Stats.unique_non_matches := 1;
                Stats.duplicate_matches := 0;
                Stats.duplicate_non_matches := 0 |},
             [[VStr (u "3")]]).
Proof.
  exact (scenario_leading_zeros Reference.isdigit Reference.nfkd Reference.float_repr
           Reference_isdigit_ascii).
Defined.

(** C3, as stated, fails: on the string keys the run with CPython's tables
    gives no match and three non-matches. *)
Lemma scenario_leading_zeros_no_match :
  option_map (fun res => (Stats.unique_matches (statistics res),
                          Stats.unique_non_matches (statistics res),
                          rows (matches res),
                          rows (unique_non_matches res)))
             (compare Reference.isdigit Reference.nfkd Reference.float_repr
                      scenario_table1 (u "key") [] no_trim
                      scenario_table2 (u "key") [] no_trim)
  = Some (0, 3, [], [[VStr (u "1")]; [VStr (u "2")]; [VStr (u "3")]])
  /\ normalize_value Reference.isdigit Reference.float_repr (VStr (u "001")) 0 0
     = u "001".
Proof.
  split; vm_compute; reflexivity.
Qed.

(** ** Further properties of the normalizer *)

Lemma filter_all_true {A : Type} (f : A -> bool) (l : list A) :
  Forall (fun x => f x = true) l -> filter f l = l.
Proof.
  induction 1 as [|x l Hx _ IH]; simpl; [reflexivity|]. now rewrite Hx, IH.
Qed.

Lemma trims_closed_form (ts te : Z) (s : ustring) :
  (let s1 := if ts >? 0 then slice_from ts s else s in
   if te >? 0
   then (if te <? Text.len s1 then slice_until_last te s1 else [])
   else s1)
  = trimmed ts te s.
Proof.
  unfold trimmed, slice_from, slice_until_last, Text.len. cbv zeta.
  destruct (Z.gtb_spec ts 0) as [Hts|Hts].
  - pose proof (length_skipn (Z.to_nat ts) s) as Hl.
    destruct (Z.gtb_spec te 0) as [Hte|Hte].
    + destruct (Z.ltb_spec te (Z.of_nat (length (skipn (Z.to_nat ts) s)))) as [H|H].
      * f_equal. lia.
      * replace (Z.to_nat (Z.of_nat (length s) - Z.max 0 ts - Z.max 0 te)) with 0%nat
          by lia.
        reflexivity.
    + symmetry. apply firstn_all2. lia.
  - replace (Z.to_nat ts) with 0%nat by lia. simpl skipn.
    destruct (Z.gtb_spec te 0) as [Hte|Hte].
    + destruct (Z.ltb_spec te (Z.of_nat (length s))) as [H|H].
      * f_equal. lia.
      * replace (Z.to_nat (Z.of_nat (length s) - Z.max 0 ts - Z.max 0 te)) with 0%nat
          by lia.
        reflexivity.
    + symmetry. apply firstn_all2. lia.
Qed.

(** X2. For a value that is neither missing nor a float with zero
    fractional part, [normalize_value] returns the digits of the part of
    [str(value)] between position [trim_start] and [trim_end] characters
    before the end; a trim that is zero or negative removes nothing, and
    when the two trims together reach the length of the text the result is
    the empty string, without an error. *)
Theorem normalize_value_trims :
  forall (isdigit : N -> bool) (float_repr : bool -> positive -> Z -> ustring)
         (v : value) (trim_start trim_end : Z),
    isna v = false -> integral_float v = false ->
    normalize_value isdigit float_repr v trim_start trim_end
    = filter isdigit (trimmed trim_start trim_end (py_str float_repr v))
    /\ (Text.len (py_str float_repr v) <= Z.max 0 trim_start + Z.max 0 trim_end ->
        normalize_value isdigit float_repr v trim_start trim_end = []).
Proof.
  intros isdigit float_repr v ts te Hna Hint.
  assert (E : normalize_value isdigit float_repr v ts te
              = filter isdigit (trimmed ts te (py_str float_repr v))).
  { unfold normalize_value, normalize_value_try. rewrite Hna.
    rewrite <- trims_closed_form. cbv zeta.
    destruct v as [|s|n|f]; try reflexivity.
    simpl in Hint. now rewrite Hint. }
  split; [exact E|].
  intros Hlen. rewrite E. unfold trimmed.
  replace (Z.to_nat _) with 0%nat by lia. reflexivity.
Qed.

Lemma normalize_value_trims_witness :
  normalize_value Reference.isdigit Reference.float_repr
                  (VStr (u "AB-12-34")) 3 1
  = filter Reference.isdigit
           (trimmed 3 1 (py_str Reference.float_repr (VStr (u "AB-12-34"))))
  /\ (Text.len (py_str Reference.float_repr (VStr (u "AB-12-34")))
      <= Z.max 0 3 + Z.max 0 1 ->
      normalize_value Reference.isdigit Reference.float_repr
                      (VStr (u "AB-12-34")) 3 1 = []).
Proof.
  exact (normalize_value_trims Reference.isdigit Reference.float_repr
           (VStr (u "AB-12-34")) 3 1 eq_refl eq_refl).
Defined.

(** X3. Normalising twice changes nothing: for every value other than a
    negative float with zero fractional part, [normalize_value] of the key
    it returned, with no trim, is that key. *)
Theorem normalize_value_idempotent :
  forall (isdigit : N -> bool) (float_repr : bool -> positive -> Z -> ustring),
    (forall c, is_ascii c = true -> isdigit c = is_ascii_digit c) ->
    forall (v : value) (trim_start trim_end : Z),
      negative_integral_float v = false ->
      normalize_value isdigit float_repr
        (VStr (normalize_value isdigit float_repr v trim_start trim_end)) 0 0
      = normalize_value isdigit float_repr v trim_start trim_end.
Proof.
  intros isdigit float_repr Hascii v ts te Hneg.
  pose proof (normalize_value_passes isdigit float_repr Hascii v ts te Hneg) as H.
  unfold normalize_value at 1. unfold normalize_value_try. simpl.
  now apply filter_all_true.
Qed.

Lemma normalize_value_idempotent_witness :
  normalize_value Reference.isdigit Reference.float_repr
    (VStr (normalize_value Reference.isdigit Reference.float_repr
             (VStr (u "AB-12-34")) 3 1)) 0 0
  = normalize_value Reference.isdigit Reference.float_repr (VStr (u "AB-12-34")) 3 1.
Proof.
  exact (normalize_value_idempotent Reference.isdigit Reference.float_repr
           Reference_isdigit_ascii (VStr (u "AB-12-34")) 3 1 eq_refl).
Defined.

(** X4. An integer loses its sign: with no trim, [normalize_value] of an
    integer is the decimal digits of its absolute value, so [n] and [-n]
    give the same key. *)
Theorem normalize_value_int_sign :
  forall (isdigit : N -> bool) (float_repr : bool -> positive -> Z -> ustring),
    (forall c, is_ascii c = true -> isdigit c = is_ascii_digit c) ->
    forall n : Z,
      normalize_value isdigit float_repr (VInt n) 0 0 = str_of_int (Z.abs n)
      /\ normalize_value isdigit float_repr (VInt (- n)) 0 0
         = normalize_value isdigit float_repr (VInt n) 0 0.
Proof.
  intros isdigit float_repr Hascii.
  assert (E : forall n, normalize_value isdigit float_repr (VInt n) 0 0
                        = str_of_int (Z.abs n)).
  { intros n. unfold normalize_value, normalize_value_try. simpl.
    destruct n as [|p|p]; simpl Z.abs.
    - apply (filter_isdigit_ascii_digits isdigit Hascii), str_of_int_nonneg. lia.
    - apply (filter_isdigit_ascii_digits isdigit Hascii), str_of_int_nonneg. lia.
    - unfold str_of_int, Z.to_int. simpl filter.
      rewrite (Hascii 45%N eq_refl). simpl.
      apply (filter_isdigit_ascii_digits isdigit Hascii),
            digits_of_uint_ascii_digit. }
  intros n. split; [apply E|]. now rewrite !E, Z.abs_opp.
Qed.

Lemma normalize_value_int_sign_witness :
  normalize_value Reference.isdigit Reference.float_repr (VInt (-42)) 0 0
  = str_of_int (Z.abs (-42))
  /\ normalize_value Reference.isdigit Reference.float_repr (VInt (- (-42))) 0 0
     = normalize_value Reference.isdigit Reference.float_repr (VInt (-42)) 0 0.
Proof.
  exact (normalize_value_int_sign Reference.isdigit Reference.float_repr
           Reference_isdigit_ascii (-42)).
Defined.

(** ** Further properties of the accent stripping *)

Lemma Reference_decomposition_ascii (c : N) :
  is_ascii c = true -> Reference.decomposition c = [c].
Proof.
  unfold is_ascii. intros H. apply N.ltb_lt in H.
  assert (Hn : exists n, (n < 128)%nat /\ c = N.of_nat n).
  { exists (N.to_nat c). split; [lia | now rewrite N2Nat.id]. }
  destruct Hn as (n & Hlt & ->). clear H.
  do 128 (destruct n as [|n]; [vm_compute; reflexivity|]).
  exfalso. lia.
Qed.

Lemma Reference_nfkd_ascii (s : ustring) :
  Forall (fun c => is_ascii c = true) s -> Reference.nfkd s = s.
Proof.
  unfold Reference.nfkd. induction 1 as [|c s Hc _ IH]; simpl; [reflexivity|].
  now rewrite (Reference_decomposition_ascii c Hc), IH.
Qed.

(** X5. [remove_accents] of a string is always ASCII text. When the
    compatibility decomposition leaves ASCII text as it is (as NFKD does),
    [remove_accents] leaves ASCII text unchanged and applying it twice is
    the same as applying it once, on every value. *)
Theorem remove_accents_ascii_idempotent :
  forall nfkd : ustring -> ustring,
    (forall s, Forall (fun c => is_ascii c = true) s -> nfkd s = s) ->
    (forall s, exists t, remove_accents nfkd (VStr s) = VStr t
                         /\ Forall (fun c => is_ascii c = true) t)
    /\ (forall s, Forall (fun c => is_ascii c = true) s ->
                  remove_accents nfkd (VStr s) = VStr s)
    /\ (forall v, remove_accents nfkd (remove_accents nfkd v)
                  = remove_accents nfkd v).
Proof.
  intros nfkd Hfix.
  assert (Hout : forall s, Forall (fun c => is_ascii c = true)
                                  (filter is_ascii (nfkd s))).
  { intros s. apply Forall_forall. intros c Hc. apply filter_In in Hc. apply Hc. }
  assert (Hid : forall s, Forall (fun c => is_ascii c = true) s ->
                          remove_accents nfkd (VStr s) = VStr s).
  { intros s Hs. rewrite remove_accents_text, (Hfix s Hs).
    now rewrite filter_all_true. }
  split; [|split].
  - intros s. exists (filter is_ascii (nfkd s)).
    split; [apply remove_accents_text | apply Hout].
  - exact Hid.
  - intros [|s|n|f]; try reflexivity.
    rewrite remove_accents_text. apply Hid, Hout.
Qed.

Lemma remove_accents_ascii_idempotent_witness :
  (forall s, exists t, remove_accents Reference.nfkd (VStr s) = VStr t
                       /\ Forall (fun c => is_ascii c = true) t)
  /\ (forall s, Forall (fun c => is_ascii c = true) s ->
                remove_accents Reference.nfkd (VStr s) = VStr s)
  /\ (forall v, remove_accents Reference.nfkd (remove_accents Reference.nfkd v)
                = remove_accents Reference.nfkd v).
Proof.
  exact (remove_accents_ascii_idempotent Reference.nfkd Reference_nfkd_ascii).
Defined.

(** ** Further properties of [normalize_column] and of the projections *)

Lemma get_loc_app_other (l t : label) (cols : list label) :
  l <> t -> get_loc l (cols ++ [t]) = get_loc l cols.
Proof.
  intros Hne. induction cols as [|c cols IH]; simpl.
  - destruct (Text.eqb t l) eqn:E; [|reflexivity].
    apply text_eqb_eq in E. congruence.
  - now rewrite IH.
Qed.

Lemma cell_replace_nth_other (x : value) (r : list value) :
  forall i j, i <> j -> cell i (replace_nth j x r) = cell i r.
Proof.
  unfold cell. induction r as [|y r IH]; intros i j Hne; [now destruct j|].
  destruct j as [|j]; destruct i as [|i]; simpl; try reflexivity.
  - congruence.
  - apply IH. congruence.
Qed.

Lemma get_loc_inj (cols : list label) :
  forall a b i, get_loc a cols = Some i -> get_loc b cols = Some i -> a = b.
Proof.
  induction cols as [|c cols IH]; simpl; intros a b i; [discriminate|].
  destruct (Text.eqb c a) eqn:Ea, (Text.eqb c b) eqn:Eb.
  - apply text_eqb_eq in Ea, Eb. congruence.
  - intros [= <-]. destruct (get_loc b cols); discriminate.
  - intros H [= <-]. destruct (get_loc a cols); discriminate.
  - destruct (get_loc a cols) as [ia|] eqn:Ha; [|discriminate].
    destruct (get_loc b cols) as [ib|] eqn:Hb; [|discriminate].
    simpl. intros [= <-] [= E]. subst. eapply IH; eauto.
Qed.

(** After [df[name] = values] on a rectangular frame, every other column is
    what it was. *)
Lemma assign_other_column (df : DataFrame) (name l : label) (d : dtype)
      (f : list value -> value) :
  rectangular df -> l <> name ->
  column (assign df name d f) l = column df l.
Proof.
  intros Hrect Hne. unfold rectangular in Hrect. rewrite Forall_forall in Hrect.
  unfold column, assign, labels.
  destruct (get_loc name (map fst (columns df))) as [j|] eqn:Hj; simpl.
  - rewrite (replace_nth_same_label _ _ _ _ Hj).
    destruct (get_loc l (map fst (columns df))) as [i|] eqn:Hi; [|reflexivity].
    f_equal. rewrite map_map. apply map_ext. intros r.
    apply cell_replace_nth_other. intros ->.
    apply Hne. eapply get_loc_inj; eauto.
  - rewrite map_app. simpl. rewrite (get_loc_app_other l name _ Hne).
    destruct (get_loc l (map fst (columns df))) as [i|] eqn:Hi; [|reflexivity].
    f_equal. rewrite map_map. apply map_ext_in. intros r Hr. unfold cell.
    apply app_nth1. rewrite (Hrect r Hr).
    apply get_loc_lt in Hi. now rewrite length_map in Hi.
Qed.

Lemma assign_written_column (df : DataFrame) (name : label) (d : dtype)
      (f : list value -> value) :
  rectangular df ->
  column (assign df name d f) name = Some (map f (rows df)).
Proof.
  intros Hrect. destruct (assign_cell df name d f Hrect) as (j & g & Hj & Hg & Hc).
  unfold column. rewrite Hj, Hg, map_map. f_equal. now apply map_ext_in.
Qed.

(** X6. [normalize_column] fails exactly when the source column is missing.
    On a rectangular frame with that column it writes one column only: the
    written column (the new column when one is named, the source column
    otherwise) holds [normalize_value] of the source cell of each row, every
    other column is returned as it was, and no row is added or dropped. *)
Theorem normalize_column_writes_one_column :
  forall (isdigit : N -> bool) (float_repr : bool -> positive -> Z -> ustring)
         (df : DataFrame) (column_name : label) (new_column_name : option label)
         (trim_start trim_end : Z),
    (normalize_column isdigit float_repr df column_name new_column_name
                      trim_start trim_end = None
     <-> ~ In column_name (labels df))
    /\ (rectangular df ->
        forall out,
          normalize_column isdigit float_repr df column_name new_column_name
                           trim_start trim_end = Some out ->
          exists i,
            get_loc column_name (labels df) = Some i
            /\ column out (written_column column_name new_column_name)
               = Some (map (fun r => VStr (normalize_value isdigit float_repr
                                             (cell i r) trim_start trim_end))
                           (rows df))
            /\ (forall l, l <> written_column column_name new_column_name ->
                          column out l = column df l)
            /\ length (rows out) = length (rows df)).
Proof.
  intros isdigit float_repr df c new ts te. split.
  - rewrite <- get_loc_None. unfold normalize_column.
    destruct (get_loc c (labels df)) as [j|]; [|tauto].
    split; [|discriminate]. now destruct new as [[|x0 tl]|].
  - intros Hrect out. unfold normalize_column.
    destruct (get_loc c (labels df)) as [i|]; [|discriminate].
    set (f := fun r => VStr (normalize_value isdigit float_repr (cell i r) ts te)).
    intros H.
    assert (E : out = assign df (written_column c new) object f).
    { destruct new as [[|x0 tl]|]; simpl; congruence. }
    exists i. rewrite E. split; [reflexivity|]. split; [|split].
    + now apply assign_written_column.
    + intros l Hl. now apply assign_other_column.
    + apply assign_length.
Qed.

Lemma rectangular_example_data2 : rectangular example_data2.
Proof. repeat constructor. Qed.

Lemma rectangular_example_data1 : rectangular example_data1.
Proof. repeat constructor. Qed.

Lemma normalize_column_writes_one_column_witness :
  exists out,
    normalize_column Reference.isdigit Reference.float_repr example_data2 (u "k")
                     (Some normalized_key) 0 0 = Some out
    /\ exists i,
        get_loc (u "k") (labels example_data2) = Some i
        /\ column out (written_column (u "k") (Some normalized_key))
           = Some (map (fun r => VStr (normalize_value Reference.isdigit
                                         Reference.float_repr (cell i r) 0 0))
                       (rows example_data2))
        /\ (forall l, l <> written_column (u "k") (Some normalized_key) ->
                      column out l = column example_data2 l)
        /\ length (rows out) = length (rows example_data2).
Proof.
  eexists. split; [vm_compute; reflexivity|].
  apply (proj2 (normalize_column_writes_one_column
                  Reference.isdigit Reference.float_repr example_data2 (u "k")
                  (Some normalized_key) 0 0) rectangular_example_data2).
  vm_compute. reflexivity.
Defined.

(** X7. In the frame that enters the join for a source (a rectangular
    table), the [normalized_key] column holds, row by row and for every row
    of the source, [normalize_value] of the chosen column with the trims of
    the source when trimming is enabled and with no trim otherwise; the
    additional columns follow under their names with the side's suffix. *)
Theorem projection_keys_are_normalized :
  forall (isdigit : N -> bool) (float_repr : bool -> positive -> Z -> ustring)
         (tag : ustring) (data : DataFrame) (selected_column : label)
         (additional_columns : list label) (trim : trim_options) (m : DataFrame),
    rectangular data ->
    merge_data isdigit float_repr tag data selected_column additional_columns trim
    = Some m ->
    exists i,
      get_loc selected_column (labels data) = Some i
      /\ column m normalized_key
         = Some (map (fun r => VStr (normalize_value isdigit float_repr (cell i r)
                                       (if enable trim then trim_start trim else 0)
                                       (if enable trim then trim_end trim else 0)))
                     (rows data))
      /\ labels m = normalized_key :: renamed tag additional_columns.
Proof.
  intros isdigit float_repr tag data c extras trim m Hrect H.
  destruct (merge_data_keys _ _ _ _ _ _ _ _ Hrect H) as (i & Hi & Hk).
  pose proof (merge_data_shape _ _ _ _ _ _ _ _ H) as P.
  exists i. split; [assumption|]. split; [|apply P].
  unfold column. rewrite (projection_key_loc _ _ _ P). now rewrite Hk.
Qed.

Lemma projection_keys_are_normalized_witness :
  exists m,
    merge_data Reference.isdigit Reference.float_repr dataset2
               example_data2 (u "k") [u "v"] (mkTrim true 1 0) = Some m
    /\ column m normalized_key
       = Some [VStr (u "42"); VStr (u "1"); VStr (u "1"); VStr (u "7"); VStr (u "7")]
    /\ exists i,
        get_loc (u "k") (labels example_data2) = Some i
        /\ column m normalized_key
           = Some (map (fun r => VStr (normalize_value Reference.isdigit
                                         Reference.float_repr (cell i r)
                                         (if enable (mkTrim true 1 0)
                                          then trim_start (mkTrim true 1 0) else 0)
                                         (if enable (mkTrim true 1 0)
                                          then trim_end (mkTrim true 1 0) else 0)))
                       (rows example_data2))
        /\ labels m = normalized_key :: renamed dataset2 [u "v"].
Proof.
  eexists. split; [vm_compute; reflexivity|].
  split; [vm_compute; reflexivity|].
  apply (projection_keys_are_normalized Reference.isdigit Reference.float_repr
           dataset2 example_data2 (u "k") [u "v"] (mkTrim true 1 0) _
           rectangular_example_data2).
  vm_compute. reflexivity.
Defined.

(** ** Further properties of the deduplication *)

Lemma first_wins_fixed (i : nat) (l : list (list value)) :
  forall seen,
    NoDup (map (key_at i) l) ->
    (forall r, In r l -> ~ In (key_at i r) seen) ->
    first_wins seen i l = l.
Proof.
  induction l as [|r l IH]; intros seen Hnd Hseen; simpl; [reflexivity|].
  fold (key_at i r).
  destruct (existsb (hkey_eqb (key_at i r)) seen) eqn:E.
  - apply seen_In in E. exfalso. apply (Hseen r); [now left | assumption].
  - simpl in Hnd. inversion Hnd as [|? ? Hnotin Hnd']; subst.
    rewrite IH; [reflexivity | assumption |].
    intros r' Hr' [Heq|Hin].
    + apply Hnotin. rewrite Heq. now apply in_map.
    + apply (Hseen r'); [now right | assumption].
Qed.

Lemma first_wins_length_le (i : nat) (l : list (list value)) :
  forall seen, (length (first_wins seen i l) <= length l)%nat.
Proof.
  induction l as [|r l IH]; intros seen; simpl; [lia|].
  destruct (existsb _ seen); simpl.
  - specialize (IH seen). lia.
  - specialize (IH (hash_key (cell i r) :: seen)). lia.
Qed.

Lemma get_loc_Some_In (name : label) (l : list label) :
  In name l <-> exists i, get_loc name l = Some i.
Proof.
  destruct (get_loc name l) as [i|] eqn:E.
  - split; [eauto|]. intros _.
    destruct (in_dec (list_eq_dec N.eq_dec) name l) as [H|H]; [assumption|].
    apply get_loc_None in H. congruence.
  - apply get_loc_None in E. split; [tauto|]. intros [i Hi]. discriminate.
Qed.

(** X8. [get_unique_records] returns a table whenever the table has the
    column, and on a table with at least one row and one column it fails
    when the column is missing. Deduplicating its result again changes
    nothing, a table whose keys are already distinct is returned as it is,
    the result never has more rows than the table, and it is empty only for
    an empty table. *)
Theorem get_unique_records_idempotent :
  forall (df : DataFrame) (column_name : label),
    (In column_name (labels df) ->
     exists out, get_unique_records df column_name = Some out)
    /\ (rows df <> [] -> columns df <> [] ->
        ~ In column_name (labels df) ->
        get_unique_records df column_name = None)
    /\ forall out,
        get_unique_records df column_name = Some out ->
        get_unique_records out column_name = Some out
        /\ (length (rows out) <= length (rows df))%nat
        /\ (rows out = [] -> rows df = [])
        /\ (forall i, get_loc column_name (labels df) = Some i ->
                      NoDup (map (key_at i) (rows df)) ->
                      rows out = rows df).
Proof.
  intros df c. unfold get_unique_records, drop_duplicates. split; [|split].
  - intros Hin. apply get_loc_Some_In in Hin. destruct Hin as [i ->]. eauto.
  - intros _ _ Hno. apply get_loc_None in Hno. now rewrite Hno.
  - intros out. destruct (get_loc c (labels df)) as [i|] eqn:Hi; [|discriminate].
    intros [= <-]. unfold labels in *. simpl. rewrite Hi.
    split; [|split; [|split]].
    + do 2 f_equal. apply first_wins_fixed.
      * apply first_wins_keys.
      * intros r _ [].
    + apply first_wins_length_le.
    + destruct (rows df) as [|r l]; [reflexivity|]. simpl. discriminate.
    + intros j [= <-] Hnd. apply first_wins_fixed; [assumption|].
      intros r _ [].
Qed.

Lemma get_unique_records_idempotent_witness :
  get_unique_records dedup_example (u "missing") = None
  /\ exists out,
    get_unique_records dedup_example (u "k") = Some out
    /\ get_unique_records out (u "k") = Some out
    /\ (length (rows out) <= length (rows dedup_example))%nat
    /\ (rows out = [] -> rows dedup_example = [])
    /\ (forall i, get_loc (u "k") (labels dedup_example) = Some i ->
                  NoDup (map (key_at i) (rows dedup_example)) ->
                  rows out = rows dedup_example).
Proof.
  split.
  - apply (proj1 (proj2 (get_unique_records_idempotent dedup_example (u "missing")))).
    + discriminate.
    + discriminate.
    + simpl. intros [H|[H|[]]]; discriminate H.
  - eexists. split; [vm_compute; reflexivity|].
    apply (proj2 (proj2 (get_unique_records_idempotent dedup_example (u "k")))).
    vm_compute. reflexivity.
Defined.

(** ** When the comparison fails *)

Lemma get_locs_Some_iff (names cols : list label) :
  (exists idx, get_locs names cols = Some idx)
  <-> forall n, In n names -> In n cols.
Proof.
  induction names as [|n names IH]; simpl.
  - split; [intros _ ? [] | eauto].
  - split.
    + intros [idx H] x [<-|Hx].
      * apply get_loc_Some_In. destruct (get_loc n cols); [eauto | discriminate].
      * apply IH; [|assumption].
        destruct (get_loc n cols); [|discriminate].
        destruct (get_locs names cols); [eauto | discriminate].
    + intros H.
      destruct (proj1 (get_loc_Some_In n cols) (H n (or_introl eq_refl))) as [i ->].
      destruct (proj2 IH (fun x Hx => H x (or_intror Hx))) as [idx ->]. eauto.
Qed.

Lemma select_Some_iff (df : DataFrame) (names : list label) :
  (exists out, select df names = Some out)
  <-> forall n, In n names -> In n (labels df).
Proof.
  rewrite <- get_locs_Some_iff. unfold select.
  destruct (get_locs names (labels df)); split; eauto.
  - intros [? ?]. discriminate.
  - intros [? ?]. discriminate.
Qed.

Lemma assign_labels_In (df : DataFrame) (name : label) (d : dtype)
      (f : list value -> value) (x : label) :
  In x (labels (assign df name d f)) <-> In x (labels df) \/ x = name.
Proof.
  unfold assign, labels.
  destruct (get_loc name (map fst (columns df))) as [j|] eqn:Hj; simpl.
  - rewrite (replace_nth_same_label _ _ _ _ Hj). split; [tauto|].
    intros [H| ->]; [assumption|]. apply get_loc_Some_In. eauto.
  - rewrite map_app, in_app_iff. simpl. intuition congruence.
Qed.

Lemma add_nan_fold_labels_In (cs : list label) :
  forall df x,
    In x (labels (fold_left add_nan cs df)) <-> In x (labels df) \/ In x cs.
Proof.
  induction cs as [|c cs IH]; intros df x; cbn [fold_left In]; [tauto|].
  rewrite IH. unfold add_nan. rewrite assign_labels_In.
  intuition congruence.
Qed.

Lemma add_nan_fold_length (cs : list label) :
  forall df, length (rows (fold_left add_nan cs df)) = length (rows df).
Proof.
  induction cs as [|c cs IH]; intros df; cbn [fold_left]; [reflexivity|].
  rewrite IH. apply assign_length.
Qed.

Lemma merge_data_Some_iff isdigit float_repr tag data selected_column
      additional_columns trim :
  (exists m, merge_data isdigit float_repr tag data selected_column
                        additional_columns trim = Some m)
  <-> usable data selected_column additional_columns.
Proof.
  unfold merge_data, usable. rewrite normalize_column_key.
  destruct (get_loc selected_column (labels data)) as [i|] eqn:Hi.
  2:{ apply get_loc_None in Hi. split; [|tauto]. intros [? ?]. discriminate. }
  assert (Hc : In selected_column (labels data)).
  { apply get_loc_Some_In. eauto. }
  simpl option_map. cbv iota beta.
  set (nd := assign data normalized_key object _).
  assert (Hnd : forall x, In x (labels nd)
                          <-> In x (labels data) \/ x = normalized_key).
  { intros x. apply assign_labels_In. }
  destruct additional_columns as [|e es].
  - split.
    + intros _. split; [assumption | intros ? []].
    + intros _. apply select_Some_iff. intros n [<-|[]]. apply Hnd. now right.
  - split.
    + intros [m H]. split; [assumption|].
      destruct (select nd _) as [p|] eqn:Hs; [|discriminate].
      intros x Hx. apply Hnd.
      apply (proj1 (select_Some_iff nd _) (ex_intro _ p Hs)). now right.
    + intros [_ H].
      destruct (proj2 (select_Some_iff nd (normalized_key :: e :: es))) as [p Hp].
      { intros n [<-|Hn]; apply Hnd; [now right | now apply H]. }
      rewrite Hp. unfold set_labels.
      apply select_shape in Hp. destruct Hp as [Hl _].
      assert (Hlen : length (columns p) = length (normalized_key :: e :: es)).
      { rewrite <- Hl. unfold labels. now rewrite length_map. }
      rewrite Hlen. simpl length. rewrite !length_map, Nat.eqb_refl. eauto.
Qed.

(** X9. A missing column ends the comparison. A result is produced only
    when each source has its chosen column and each of its additional
    columns (an additional column may also be [normalized_key], which the
    normalised frame has); when a source lacks one of them, a KeyError ends
    the comparison and nothing is produced. *)
Theorem compare_needs_columns :
  forall isdigit nfkd float_repr data1 c1 e1 t1 data2 c2 e2 t2,
    (forall res,
        compare isdigit nfkd float_repr data1 c1 e1 t1 data2 c2 e2 t2 = Some res ->
        usable data1 c1 e1 /\ usable data2 c2 e2)
    /\ (~ usable data1 c1 e1 \/ ~ usable data2 c2 e2 ->
        compare isdigit nfkd float_repr data1 c1 e1 t1 data2 c2 e2 t2 = None).
Proof.
  intros isdigit nfkd float_repr data1 c1 e1 t1 data2 c2 e2 t2.
  assert (Hinv : forall res,
             compare isdigit nfkd float_repr data1 c1 e1 t1 data2 c2 e2 t2
             = Some res ->
             usable data1 c1 e1 /\ usable data2 c2 e2).
  { intros res H. apply compare_inv in H.
    destruct H as (m1 & m2 & _ & _ & _ & H1 & H2 & _).
    split; eapply merge_data_Some_iff; eauto. }
  split; [exact Hinv|].
  intros Hno.
  destruct (compare isdigit nfkd float_repr data1 c1 e1 t1 data2 c2 e2 t2)
    as [res|] eqn:E; [|reflexivity].
  exfalso. destruct (Hinv res eq_refl). tauto.
Qed.

Lemma compare_needs_columns_witness :
  (usable example_data1 (u "id") [u "name"]
   /\ usable example_data2 (u "k") [u "v"])
  /\ compare Reference.isdigit Reference.nfkd Reference.float_repr
             example_data1 (u "missing") [u "name"] no_trim
             example_data2 (u "k") [u "v"] no_trim = None
  /\ compare Reference.isdigit Reference.nfkd Reference.float_repr
             example_data1 (u "id") [u "name"] no_trim
             example_data2 (u "k") [u "missing"] no_trim = None.
Proof.
  split; [|split].
  - destruct example_compare as [res|] eqn:E; [|vm_compute in E; discriminate E].
    exact (proj1 (compare_needs_columns
                    Reference.isdigit Reference.nfkd Reference.float_repr
                    example_data1 (u "id") [u "name"] no_trim
                    example_data2 (u "k") [u "v"] no_trim) res E).
  - apply (proj2 (compare_needs_columns
                    Reference.isdigit Reference.nfkd Reference.float_repr
                    example_data1 (u "missing") [u "name"] no_trim
                    example_data2 (u "k") [u "v"] no_trim)).
    left. intros [H _]. simpl in H.
    destruct H as [H|[H|[]]]; discriminate H.
  - apply (proj2 (compare_needs_columns
                    Reference.isdigit Reference.nfkd Reference.float_repr
                    example_data1 (u "id") [u "name"] no_trim
                    example_data2 (u "k") [u "missing"] no_trim)).
    right. intros [_ H]. specialize (H (u "missing") (or_introl eq_refl)).
    simpl in H. destruct H as [[H|[H|[]]]|H]; discriminate H.
Defined.

(** ** Row counts of a comparison *)

Lemma filter_partition_length {A : Type} (p : A -> bool) (l : list A) :
  (length (filter p l) + length (filter (fun x => negb (p x)) l))%nat = length l.
Proof.
  induction l as [|x l IH]; simpl; [reflexivity|].
  destruct (p x); simpl; lia.
Qed.

Lemma filter_length_le' {A : Type} (p : A -> bool) (l : list A) :
  (length (filter p l) <= length l)%nat.
Proof.
  induction l as [|x l IH]; simpl; [lia|]. destruct (p x); simpl; lia.
Qed.

Lemma nodup_length_le (l : list hkey) :
  (length (nodup hkey_eq_dec l) <= length l)%nat.
Proof.
  induction l as [|x l IH]; simpl; [lia|].
  destruct (in_dec hkey_eq_dec x l); simpl; lia.
Qed.

Lemma NoDup_count_le_1 (i : nat) (k : hkey) (l : list (list value)) :
  NoDup (map (key_at i) l) -> (count_key i k l <= 1)%nat.
Proof.
  induction l as [|r l IH]; simpl; intros Hnd.
  - unfold count_key. simpl. lia.
  - inversion Hnd as [|? ? Hnotin Hnd']; subst. rewrite count_key_cons.
    specialize (IH Hnd'). unfold has_key.
    destruct (hkey_eqb (key_at i r) k) eqn:E; [|lia].
    apply hkey_eqb_eq in E. subst k.
    assert (count_key i (key_at i r) l = 0)%nat; [|lia].
    destruct (count_key i (key_at i r) l) eqn:C; [reflexivity|].
    exfalso. apply Hnotin. apply In_keys_count. lia.
Qed.

Lemma join_row_length (l : list value) (right : list (list value)) :
  length (map (fun r => l ++ remove_nth 0 r)
              (filter (fun r => same_key (cell 0 l) (cell 0 r)) right))
  = count_key 0 (key_at 0 l) right.
Proof.
  rewrite length_map. unfold count_key. f_equal. apply filter_ext. intros r.
  unfold same_key, has_key, key_at. apply hkey_eqb_sym.
Qed.

Lemma existsb_count (i : nat) (k : hkey) (l : list (list value)) :
  existsb (has_key i k) l = negb (Nat.eqb (count_key i k l) 0).
Proof.
  destruct (existsb (has_key i k) l) eqn:E.
  - apply has_key_In, In_keys_count in E.
    destruct (count_key i k l); [lia | reflexivity].
  - destruct (count_key i k l) eqn:C; [reflexivity|].
    assert (H : In k (map (key_at i) l)) by (apply In_keys_count; lia).
    apply has_key_In in H. congruence.
Qed.

(** Every row of the left frame whose key occurs on the right gives at
    least one row of the join, and exactly one when the keys on the right
    are distinct. *)
Lemma join_length (left right : list (list value)) :
  (length (filter (fun l => existsb (has_key 0 (key_at 0 l)) right) left)
   <= length (flat_map
                (fun l => map (fun r => l ++ remove_nth 0 r)
                              (filter (fun r => same_key (cell 0 l) (cell 0 r)) right))
                left))%nat
  /\ (NoDup (map (key_at 0) right) ->
      length (flat_map
                (fun l => map (fun r => l ++ remove_nth 0 r)
                              (filter (fun r => same_key (cell 0 l) (cell 0 r)) right))
                left)
      = length (filter (fun l => existsb (has_key 0 (key_at 0 l)) right) left)).
Proof.
  induction left as [|l left [IH1 IH2]]; cbn [flat_map filter].
  - split; reflexivity.
  - rewrite length_app, join_row_length, existsb_count. split.
    + destruct (count_key 0 (key_at 0 l) right);
        cbn [negb Nat.eqb length]; lia.
    + intros Hnd. specialize (IH2 Hnd).
      pose proof (NoDup_count_le_1 0 (key_at 0 l) right Hnd) as Hle.
      destruct (count_key 0 (key_at 0 l) right) as [|[|n]];
        cbn [negb Nat.eqb length]; lia.
Qed.

Lemma merge_data_same_keys isdigit float_repr tag1 tag2 data c e1 e2 trim m1 m2 :
  merge_data isdigit float_repr tag1 data c e1 trim = Some m1 ->
  merge_data isdigit float_repr tag2 data c e2 trim = Some m2 ->
  map (cell 0) (rows m1) = map (cell 0) (rows m2).
Proof.
  unfold merge_data.
  destruct (normalize_column _ _ _ _ _ _ _) as [nd|]; [|discriminate].
  assert (Hsel : forall names p,
             select nd (normalized_key :: names) = Some p ->
             exists j, get_loc normalized_key (labels nd) = Some j
                       /\ map (cell 0) (rows p) = map (cell j) (rows nd)).
  { intros names p Hs. apply select_shape in Hs.
    destruct Hs as (_ & idx & Hidx & _ & Hr). simpl in Hidx.
    destruct (get_loc normalized_key (labels nd)) as [j|]; [|discriminate].
    destruct (get_locs names (labels nd)) as [idx'|]; [|discriminate].
    injection Hidx as <-. exists j. split; [reflexivity|].
    now rewrite Hr, map_map. }
  assert (Hone : forall tag e m,
             match e with
             | [] => select nd [normalized_key]
             | _ :: _ =>
                 match select nd (normalized_key :: e) with
                 | Some projected =>
                     set_labels projected
                                (normalized_key :: map (fun col => col ++ tag) e)
                 | None => None
                 end
             end = Some m ->
             exists j, get_loc normalized_key (labels nd) = Some j
                       /\ map (cell 0) (rows m) = map (cell j) (rows nd)).
  { intros tag [|e es] m H.
    - now apply Hsel in H.
    - destruct (select nd _) as [p|] eqn:Hs; [|discriminate].
      apply set_labels_shape in H. destruct H as [_ Hr]. rewrite Hr.
      now apply Hsel in Hs. }
  intros H1 H2. apply Hone in H1. apply Hone in H2.
  destruct H1 as (j1 & Hj1 & E1), H2 as (j2 & Hj2 & E2).
  rewrite E1, E2. congruence.
Qed.

(** The row counts behind the statistics of a comparison. *)
Lemma compare_rows isdigit nfkd float_repr data1 c1 e1 t1 data2 c2 e2 t2 res :
  compare isdigit nfkd float_repr data1 c1 e1 t1 data2 c2 e2 t2 = Some res ->
  exists m1 m2 u2,
    merge_data isdigit float_repr dataset1 data1 c1 e1 t1 = Some m1
    /\ merge_data isdigit float_repr dataset2 data2 c2 e2 t2 = Some m2
    /\ get_unique_records data2 c2 = Some u2
    /\ length (rows m1) = length (rows data1)
    /\ length (rows m2) = length (rows data2)
    /\ rows (matches res)
       = flat_map
           (fun l => map (fun r => l ++ remove_nth 0 r)
                         (filter (fun r => same_key (cell 0 l) (cell 0 r)) (rows m1)))
           (rows m2)
    /\ length (rows (non_matches res)) = length (unmatched m1 m2)
    /\ length (rows (unique_matches res))
       = length (first_wins [] 0 (rows (matches res)))
    /\ length (rows (unique_non_matches res))
       = length (first_wins [] 0 (rows (non_matches res)))
    /\ (length (rows (unique_matches res)) + length (rows (unique_non_matches res)))%nat
       = distinct_keys 0 (rows m2)
    /\ statistics res
       = {| Stats.total_records := len data2;
            Stats.total_unique := len u2;
            Stats.unique_matches := len (unique_matches res);
            Stats.unique_non_matches := len (unique_non_matches res);
            Stats.duplicate_matches := len (matches res) - len (unique_matches res);
            Stats.duplicate_non_matches :=
              len (non_matches res) - len (unique_non_matches res) |}.
Proof.
  intros H. apply compare_inv in H.
  destruct H as (m1 & m2 & um & unm & u2 & H1 & H2 & Hm & Hs
                 & Hum & Hunm & Hu2 & Eum & Eunm & Est).
  pose proof (merge_data_shape _ _ _ _ _ _ _ _ H1) as P1.
  pose proof (merge_data_shape _ _ _ _ _ _ _ _ H2) as P2.
  destruct (merge_projections _ _ _ _ _ P1 P2 Hm) as [Kmt Hcount].
  pose proof (non_matches_keys _ _ _ _ _ P2 Hs) as Hnk.
  assert (Knm : get_loc normalized_key (labels (non_matches res)) = Some 0%nat).
  { apply select_shape in Hs. destruct Hs as [Hl _]. rewrite Hl.
    apply get_loc_head. }
  assert (Rum : rows um = first_wins [] 0 (rows (matches res))).
  { unfold get_unique_records, drop_duplicates in Hum. rewrite Kmt in Hum.
    now injection Hum as <-. }
  assert (Runm : rows unm = first_wins [] 0 (rows (non_matches res))).
  { unfold get_unique_records, drop_duplicates in Hunm. rewrite Knm in Hunm.
    now injection Hunm as <-. }
  pose proof (render_length _ _ _ _ Eum) as Lum.
  pose proof (render_length _ _ _ _ Eunm) as Lunm.
  exists m1, m2, u2.
  split; [assumption|]. split; [assumption|]. split; [assumption|].
  split; [exact (merge_data_length _ _ _ _ _ _ _ _ H1)|].
  split; [exact (merge_data_length _ _ _ _ _ _ _ _ H2)|].
  split.
  { unfold merge in Hm.
    rewrite (projection_key_loc _ _ _ P1), (projection_key_loc _ _ _ P2) in Hm.
    injection Hm as Hm. now rewrite <- Hm. }
  split.
  { rewrite <- (length_map (key_at 0) (rows (non_matches res))).
    fold (normalized_keys (non_matches res)). now rewrite Hnk, length_map. }
  split; [now rewrite Lum, Rum|]. split; [now rewrite Lunm, Runm|].
  split.
  { rewrite Lum, Lunm, Rum, Runm, !first_wins_length. unfold distinct_keys.
    assert (Hdec : forall k, In k (normalized_keys m1) \/ ~ In k (normalized_keys m1)).
    { intros k. destruct (in_dec hkey_eq_dec k (normalized_keys m1)); tauto. }
    apply (distinct_split _ _ _ (fun k => In k (normalized_keys m1)) Hdec).
    - intros k. fold (normalized_keys (matches res)). fold (normalized_keys m2).
      unfold normalized_keys. rewrite !In_keys_count, Hcount.
      split; [|intros [? ?]; now apply Nat.mul_pos_pos].
      intros Hp.
      destruct (count_key 0 k (rows m2)), (count_key 0 k (rows m1)); lia.
    - intros k. fold (normalized_keys (non_matches res)). rewrite Hnk.
      apply unmatched_keys. }
  exact Est.
Qed.

(** X10. The statistics of every comparison are consistent counts: the two
    duplicate counts are never negative, [total_unique] is at most
    [total_records], the non-matches (unique plus duplicate) are at most
    [total_records], the unique matches and unique non-matches together are
    at most [total_records], and every row of the second source is
    accounted for: [total_records] is at most the matches plus the
    non-matches (unique plus duplicate on each side). *)
Theorem statistics_bounds :
  forall isdigit nfkd float_repr data1 c1 e1 t1 data2 c2 e2 t2 res,
    compare isdigit nfkd float_repr data1 c1 e1 t1 data2 c2 e2 t2 = Some res ->
    0 <= Stats.unique_matches (statistics res)
    /\ 0 <= Stats.unique_non_matches (statistics res)
    /\ 0 <= Stats.duplicate_matches (statistics res)
    /\ 0 <= Stats.duplicate_non_matches (statistics res)
    /\ 0 <= Stats.total_unique (statistics res)
       <= Stats.total_records (statistics res)
    /\ Stats.unique_non_matches (statistics res)
       + Stats.duplicate_non_matches (statistics res)
       <= Stats.total_records (statistics res)
    /\ Stats.unique_matches (statistics res)
       + Stats.unique_non_matches (statistics res)
       <= Stats.total_records (statistics res)
    /\ Stats.total_records (statistics res)
       <= (Stats.unique_matches (statistics res)
           + Stats.duplicate_matches (statistics res))
          + (Stats.unique_non_matches (statistics res)
             + Stats.duplicate_non_matches (statistics res)).
Proof.
  intros isdigit nfkd float_repr data1 c1 e1 t1 data2 c2 e2 t2 res H.
  apply compare_rows in H.
  destruct H as (m1 & m2 & u2 & _ & _ & Hu2 & _ & L2 & Rm & Lnm & Lum & Lunm
                 & Hsum & Est).
  pose proof (first_wins_length_le 0 (rows (matches res)) []) as B1.
  pose proof (first_wins_length_le 0 (rows (non_matches res)) []) as B2.
  pose proof (filter_partition_length
                (fun r => existsb (has_key 0 (key_at 0 r)) (rows m1)) (rows m2)) as Hp.
  cbv beta in Hp. fold (matched m1 m2) in Hp. fold (unmatched m1 m2) in Hp.
  pose proof (proj1 (join_length (rows m2) (rows m1))) as Hj.
  fold (matched m1 m2) in Hj. rewrite <- Rm in Hj.
  assert (B3 : (length (rows u2) <= length (rows data2))%nat).
  { unfold get_unique_records, drop_duplicates in Hu2.
    destruct (get_loc c2 (labels data2)); [|discriminate].
    injection Hu2 as <-. apply first_wins_length_le. }
  pose proof (nodup_length_le (map (key_at 0) (rows m2))) as B4.
  fold (distinct_keys 0 (rows m2)) in B4. rewrite length_map in B4.
  rewrite Est. unfold len. simpl. lia.
Qed.

Lemma statistics_bounds_witness :
  exists res,
    example_compare = Some res
    /\ 0 <= Stats.unique_matches (statistics res)
    /\ 0 <= Stats.unique_non_matches (statistics res)
    /\ 0 <= Stats.duplicate_matches (statistics res)
    /\ 0 <= Stats.duplicate_non_matches (statistics res)
    /\ 0 <= Stats.total_unique (statistics res)
       <= Stats.total_records (statistics res)
    /\ Stats.unique_non_matches (statistics res)
       + Stats.duplicate_non_matches (statistics res)
       <= Stats.total_records (statistics res)
    /\ Stats.unique_matches (statistics res)
       + Stats.unique_non_matches (statistics res)
       <= Stats.total_records (statistics res)
    /\ Stats.total_records (statistics res)
       <= (Stats.unique_matches (statistics res)
           + Stats.duplicate_matches (statistics res))
          + (Stats.unique_non_matches (statistics res)
             + Stats.duplicate_non_matches (statistics res)).
Proof.
  eexists. split; [vm_compute; reflexivity|].
  apply (statistics_bounds Reference.isdigit Reference.nfkd Reference.float_repr
           example_data1 (u "id") [u "name"] no_trim
           example_data2 (u "k") [u "v"] no_trim).
  vm_compute. reflexivity.
Defined.

(** X11. When no two rows of the first source have the same normalized
    key, every row of the second source gives exactly one row, in [matches]
    or in [non_matches]: the row counts of the two frames add up to
    [total_records], and so do the four match and non-match statistics. *)
Theorem distinct_first_source_conserves_rows :
  forall isdigit nfkd float_repr data1 c1 e1 t1 data2 c2 e2 t2 res m1,
    compare isdigit nfkd float_repr data1 c1 e1 t1 data2 c2 e2 t2 = Some res ->
    merge_data isdigit float_repr dataset1 data1 c1 e1 t1 = Some m1 ->
    NoDup (normalized_keys m1) ->
    len (matches res) + len (non_matches res)
    = Stats.total_records (statistics res)
    /\ (Stats.unique_matches (statistics res)
        + Stats.duplicate_matches (statistics res))
       + (Stats.unique_non_matches (statistics res)
          + Stats.duplicate_non_matches (statistics res))
       = Stats.total_records (statistics res).
Proof.
  intros isdigit nfkd float_repr data1 c1 e1 t1 data2 c2 e2 t2 res m1 H H1 Hnd.
  apply compare_rows in H.
  destruct H as (m1' & m2 & u2 & H1' & _ & _ & _ & L2 & Rm & Lnm & _ & _ & _ & Est).
  assert (m1' = m1) by congruence. subst m1'.
  pose proof (filter_partition_length
                (fun r => existsb (has_key 0 (key_at 0 r)) (rows m1)) (rows m2)) as Hp.
  cbv beta in Hp. fold (matched m1 m2) in Hp. fold (unmatched m1 m2) in Hp.
  pose proof (proj2 (join_length (rows m2) (rows m1)) Hnd) as Hj.
  fold (matched m1 m2) in Hj. rewrite <- Rm in Hj.
  rewrite Est. unfold len. simpl. lia.
Qed.

Lemma distinct_first_source_conserves_rows_witness :
  exists res m1,
    compare Reference.isdigit Reference.nfkd Reference.float_repr
            scenario_table1_numbers (u "key") [] no_trim
            scenario_table2 (u "key") [] no_trim = Some res
    /\ merge_data Reference.isdigit Reference.float_repr dataset1
                  scenario_table1_numbers (u "key") [] no_trim = Some m1
    /\ NoDup (normalized_keys m1)
    /\ len (matches res) + len (non_matches res)
       = Stats.total_records (statistics res)
    /\ (Stats.unique_matches (statistics res)
        + Stats.duplicate_matches (statistics res))
       + (Stats.unique_non_matches (statistics res)
          + Stats.duplicate_non_matches (statistics res))
       = Stats.total_records (statistics res).
Proof.
  eexists. eexists.
  split; [vm_compute; reflexivity|].
  split; [vm_compute; reflexivity|].
  assert (Hnd : NoDup [KStr (u "1"); KStr (u "2")]).
  { constructor; [intros [H|[]]; discriminate H | apply NoDup_singleton]. }
  split; [exact Hnd|].
  apply (distinct_first_source_conserves_rows
           Reference.isdigit Reference.nfkd Reference.float_repr
           scenario_table1_numbers (u "key") [] no_trim
           scenario_table2 (u "key") [] no_trim _ _ eq_refl eq_refl Hnd).
Defined.

Lemma map_key_at_cell (l1 l2 : list (list value)) :
  map (cell 0) l1 = map (cell 0) l2 -> map (key_at 0) l1 = map (key_at 0) l2.
Proof.
  intros H. unfold key_at.
  rewrite <- (map_map (cell 0) hash_key l1), <- (map_map (cell 0) hash_key l2).
  now rewrite H.
Qed.

(** X12. A source compared with itself (the same table, chosen column and
    trims on both sides) has no non-match: [non_matches] and the returned
    [unique_non_matches] have no row, and the two non-match statistics are
    zero. *)
Theorem self_comparison_has_no_non_match :
  forall isdigit nfkd float_repr data c e1 e2 t res,
    compare isdigit nfkd float_repr data c e1 t data c e2 t = Some res ->
    rows (non_matches res) = []
    /\ rows (unique_non_matches res) = []
    /\ Stats.unique_non_matches (statistics res) = 0
    /\ Stats.duplicate_non_matches (statistics res) = 0.
Proof.
  intros isdigit nfkd float_repr data c e1 e2 t res H.
  apply compare_rows in H.
  destruct H as (m1 & m2 & u2 & H1 & H2 & _ & _ & _ & _ & Lnm & _ & Lunm & _ & Est).
  pose proof (map_key_at_cell _ _ (merge_data_same_keys _ _ _ _ _ _ _ _ _ _ _ H1 H2))
    as Hk.
  assert (Hun : unmatched m1 m2 = []).
  { unfold unmatched.
    destruct (filter _ (rows m2)) as [|r l] eqn:E; [reflexivity|].
    assert (Hin : In r (filter (fun r => negb (existsb (has_key 0 (key_at 0 r))
                                                       (rows m1))) (rows m2))).
    { rewrite E. now left. }
    apply filter_In in Hin. destruct Hin as [Hin Hp].
    assert (Hex : existsb (has_key 0 (key_at 0 r)) (rows m1) = true).
    { apply has_key_In. rewrite Hk. now apply in_map. }
    rewrite Hex in Hp. discriminate. }
  rewrite Hun in Lnm. simpl in Lnm. apply length_zero_iff_nil in Lnm.
  rewrite Lnm in Lunm. simpl in Lunm. apply length_zero_iff_nil in Lunm.
  rewrite Est. unfold len. simpl. rewrite Lnm, Lunm. simpl. auto.
Qed.

Lemma self_comparison_has_no_non_match_witness :
  exists res,
    compare Reference.isdigit Reference.nfkd Reference.float_repr
            example_data2 (u "k") [u "v"] no_trim
            example_data2 (u "k") [] no_trim = Some res
    /\ rows (non_matches res) = []
    /\ rows (unique_non_matches res) = []
    /\ Stats.unique_non_matches (statistics res) = 0
    /\ Stats.duplicate_non_matches (statistics res) = 0.
Proof.
  eexists. split; [vm_compute; reflexivity|].
  apply (self_comparison_has_no_non_match
           Reference.isdigit Reference.nfkd Reference.float_repr
           example_data2 (u "k") [u "v"] [] no_trim).
  vm_compute. reflexivity.
Defined.

Lemma flat_map_all_nil {A B : Type} (f : A -> list B) (l : list A) :
  (forall x, In x l -> f x = []) -> flat_map f l = [].
Proof.
  induction l as [|x l IH]; simpl; intros H; [reflexivity|].
  rewrite (H x (or_introl eq_refl)), IH; auto.
Qed.

(** X13. When the first source has no row (and the second has some),
    nothing matches: [matches] is empty, every row of the second source is
    in [non_matches], the match statistics are zero and the non-match
    statistics add up to [total_records]. *)
Theorem empty_first_source :
  forall isdigit nfkd float_repr data1 c1 e1 t1 data2 c2 e2 t2 res,
    rows data1 = [] -> rows data2 <> [] ->
    compare isdigit nfkd float_repr data1 c1 e1 t1 data2 c2 e2 t2 = Some res ->
    rows (matches res) = []
    /\ rows (unique_matches res) = []
    /\ len (non_matches res) = len data2
    /\ Stats.unique_matches (statistics res) = 0
    /\ Stats.duplicate_matches (statistics res) = 0
    /\ Stats.unique_non_matches (statistics res)
       + Stats.duplicate_non_matches (statistics res)
       = Stats.total_records (statistics res).
Proof.
  intros isdigit nfkd float_repr data1 c1 e1 t1 data2 c2 e2 t2 res He _ H.
  apply compare_rows in H.
  destruct H as (m1 & m2 & u2 & _ & _ & _ & L1 & L2 & Rm & Lnm & Lum & _ & _ & Est).
  rewrite He in L1. simpl in L1. apply length_zero_iff_nil in L1.
  assert (Rm0 : rows (matches res) = []).
  { rewrite Rm, L1. now apply flat_map_all_nil. }
  rewrite Rm0 in Lum. simpl in Lum. apply length_zero_iff_nil in Lum.
  assert (Hun : unmatched m1 m2 = rows m2).
  { unfold unmatched. rewrite L1. simpl. apply filter_all_true.
    apply Forall_forall. reflexivity. }
  rewrite Hun, L2 in Lnm.
  rewrite Est. unfold len. simpl. rewrite Rm0, Lum, Lnm. simpl.
  repeat split; lia.
Qed.

Lemma empty_first_source_witness :
  exists res,
    compare Reference.isdigit Reference.nfkd Reference.float_repr
            empty_source (u "id") [] no_trim
            example_data2 (u "k") [u "v"] no_trim = Some res
    /\ rows (matches res) = []
    /\ rows (unique_matches res) = []
    /\ len (non_matches res) = len example_data2
    /\ Stats.unique_matches (statistics res) = 0
    /\ Stats.duplicate_matches (statistics res) = 0
    /\ Stats.unique_non_matches (statistics res)
       + Stats.duplicate_non_matches (statistics res)
       = Stats.total_records (statistics res).
Proof.
  eexists. split; [vm_compute; reflexivity|].
  apply (empty_first_source Reference.isdigit Reference.nfkd Reference.float_repr
           empty_source (u "id") [] no_trim
           example_data2 (u "k") [u "v"] no_trim _ eq_refl).
  - discriminate.
  - vm_compute. reflexivity.
Defined.

(** X14. When the second source has no row (and the first has some), every
    frame of the result is empty and the six statistics are zero. *)
Theorem empty_second_source :
  forall isdigit nfkd float_repr data1 c1 e1 t1 data2 c2 e2 t2 res,
    rows data2 = [] -> rows data1 <> [] ->
    compare isdigit nfkd float_repr data1 c1 e1 t1 data2 c2 e2 t2 = Some res ->
    rows (matches res) = []
    /\ rows (non_matches res) = []
    /\ rows (unique_matches res) = []
    /\ rows (unique_non_matches res) = []
    /\ statistics res
       = {| Stats.total_records := 0;
            Stats.total_unique := 0;
            Stats.unique_matches := 0;
            Stats.unique_non_matches := 0;
            Stats.duplicate_matches := 0;
            Stats.duplicate_non_matches := 0 |}.
Proof.
  intros isdigit nfkd float_repr data1 c1 e1 t1 data2 c2 e2 t2 res He _ H.
  apply compare_rows in H.
  destruct H as (m1 & m2 & u2 & _ & _ & Hu2 & _ & L2 & Rm & Lnm & Lum & Lunm
                 & _ & Est).
  rewrite He in L2. simpl in L2. apply length_zero_iff_nil in L2.
  assert (Rm0 : rows (matches res) = []) by (now rewrite Rm, L2).
  assert (Rn0 : rows (non_matches res) = []).
  { apply length_zero_iff_nil. rewrite Lnm. unfold unmatched. now rewrite L2. }
  rewrite Rm0 in Lum. rewrite Rn0 in Lunm. simpl in Lum, Lunm.
  apply length_zero_iff_nil in Lum. apply length_zero_iff_nil in Lunm.
  assert (Ru2 : rows u2 = []).
  { unfold get_unique_records, drop_duplicates in Hu2.
    destruct (get_loc c2 (labels data2)); [|discriminate].
    injection Hu2 as <-. simpl. now rewrite He. }
  repeat split; try assumption.
  rewrite Est. unfold len. now rewrite He, Ru2, Rm0, Rn0, Lum, Lunm.
Qed.

Lemma empty_second_source_witness :
  exists res,
    compare Reference.isdigit Reference.nfkd Reference.float_repr
            example_data2 (u "k") [u "v"] no_trim
            empty_source (u "id") [] no_trim = Some res
    /\ rows (matches res) = []
    /\ rows (non_matches res) = []
    /\ rows (unique_matches res) = []
    /\ rows (unique_non_matches res) = []
    /\ statistics res
       = {| Stats.total_records := 0;
            Stats.total_unique := 0;
            Stats.unique_matches := 0;
            Stats.unique_non_matches := 0;
            Stats.duplicate_matches := 0;
            Stats.duplicate_non_matches := 0 |}.
Proof.
  eexists. split; [vm_compute; reflexivity|].
  apply (empty_second_source Reference.isdigit Reference.nfkd Reference.float_repr
           example_data2 (u "k") [u "v"] no_trim
           empty_source (u "id") [] no_trim _ eq_refl).
  - discriminate.
  - vm_compute. reflexivity.
Defined.

Lemma apply_columns_labels (f : value -> value) (rows : list (list value)) :
  forall cols j l,
    apply_columns f rows j cols = Some l ->
    map (fun x : label * dtype * (value -> value) => fst (fst x)) l = map fst cols.
Proof.
  induction cols as [|c cols IH]; intros j l; simpl.
  - now intros [= <-].
  - destruct (if is_object (snd c) then _ else _) as [[d g]|]; [|discriminate].
    destruct (apply_columns f rows (S j) cols) as [l'|] eqn:E; [|discriminate].
    intros [= <-]. simpl. f_equal. eapply IH; eassumption.
Qed.

Lemma render_labels nfkd float_repr (df out : DataFrame) :
  render nfkd float_repr df = Some out ->
  labels out = labels df /\ Forall (fun c => snd c = object) (columns out).
Proof.
  unfold render, apply_object_columns.
  destruct (apply_columns _ (rows df) 0 (columns df)) as [l|] eqn:El; [|discriminate].
  intros [= <-]. unfold labels. simpl. split.
  - rewrite !map_map. simpl. exact (apply_columns_labels _ _ _ _ _ El).
  - apply Forall_forall. intros c Hc. apply in_map_iff in Hc.
    now destruct Hc as (c0 & <- & _).
Qed.

(** X15. The two frames that are returned (the two sheets of the export)
    always have the same layout, that of [matches] and [non_matches]:
    [normalized_key], then the additional columns of the second source with
    the suffix [_dataset2], then those of the first source with the suffix
    [_dataset1]; all their columns are object columns (the additional
    columns of a source being distinct, as the column pickers return
    them). *)
Theorem returned_frames_layout :
  forall isdigit nfkd float_repr data1 c1 e1 t1 data2 c2 e2 t2 res,
    NoDup e1 -> NoDup e2 ->
    compare isdigit nfkd float_repr data1 c1 e1 t1 data2 c2 e2 t2 = Some res ->
    labels (matches res)
    = normalized_key :: renamed dataset2 e2 ++ renamed dataset1 e1
    /\ labels (non_matches res) = labels (matches res)
    /\ labels (unique_matches res) = labels (matches res)
    /\ labels (unique_non_matches res) = labels (matches res)
    /\ Forall (fun c => snd c = object) (columns (unique_matches res))
    /\ Forall (fun c => snd c = object) (columns (unique_non_matches res)).
Proof.
  intros isdigit nfkd float_repr data1 c1 e1 t1 data2 c2 e2 t2 res N1 N2 H.
  apply compare_inv in H.
  destruct H as (m1 & m2 & um & unm & u2 & H1 & H2 & Hm & Hs
                 & Hum & Hunm & _ & Eum & Eunm & _).
  pose proof (merge_data_shape _ _ _ _ _ _ _ _ H1) as P1.
  pose proof (merge_data_shape _ _ _ _ _ _ _ _ H2) as P2.
  assert (Lm : labels (matches res)
               = normalized_key :: renamed dataset2 e2 ++ renamed dataset1 e1).
  { unfold merge in Hm.
    rewrite (projection_key_loc _ _ _ P1), (projection_key_loc _ _ _ P2) in Hm.
    injection Hm as Hm. rewrite <- Hm.
    destruct P1 as [L1 _], P2 as [L2 _]. unfold labels in *. simpl.
    rewrite map_app, L2. simpl. f_equal. f_equal.
    destruct (columns m1) as [|c cs]; [discriminate|].
    simpl in *. now injection L1. }
  assert (Ln : labels (non_matches res)
               = normalized_key :: renamed dataset2 e2 ++ renamed dataset1 e1).
  { exact (proj1 (non_matches_shape e1 e2 m1 m2 _ N1 N2 P2 Hs)). }
  assert (Cum : columns um = columns (matches res)).
  { unfold get_unique_records, drop_duplicates in Hum.
    destruct (get_loc _ _); [|discriminate]. now injection Hum as <-. }
  assert (Cunm : columns unm = columns (non_matches res)).
  { unfold get_unique_records, drop_duplicates in Hunm.
    destruct (get_loc _ _); [|discriminate]. now injection Hunm as <-. }
  destruct (render_labels _ _ _ _ Eum) as [Lum Oum].
  destruct (render_labels _ _ _ _ Eunm) as [Lunm Ounm].
  assert (Lum' : labels um = labels (matches res))
    by (unfold labels; now rewrite Cum).
  assert (Lunm' : labels unm = labels (non_matches res))
    by (unfold labels; now rewrite Cunm).
  rewrite Lum, Lunm, Lum', Lunm', Ln, Lm. repeat split; assumption.
Qed.

Lemma returned_frames_layout_witness :
  exists res,
    example_compare = Some res
    /\ labels (matches res)
       = normalized_key :: renamed dataset2 [u "v"] ++ renamed dataset1 [u "name"]
    /\ labels (non_matches res) = labels (matches res)
    /\ labels (unique_matches res) = labels (matches res)
    /\ labels (unique_non_matches res) = labels (matches res)
    /\ Forall (fun c => snd c = object) (columns (unique_matches res))
    /\ Forall (fun c => snd c = object) (columns (unique_non_matches res)).
Proof.
  eexists. split; [vm_compute; reflexivity|].
  apply (returned_frames_layout Reference.isdigit Reference.nfkd Reference.float_repr
           example_data1 (u "id") [u "name"] no_trim
           example_data2 (u "k") [u "v"] no_trim _
           (NoDup_singleton _) (NoDup_singleton _)).
  vm_compute. reflexivity.
Defined.

(** ** The preview of the processed records *)

Lemma trimmed_nat (ts te : Z) (s : ustring) :
  trimmed ts te s
  = firstn (length s - Z.to_nat ts - Z.to_nat te) (skipn (Z.to_nat ts) s).
Proof.
  unfold trimmed, Text.len. f_equal. lia.
Qed.

Lemma preview_trim_closed_form (ts te : Z) (x : ustring) :
  (let x1 := if ts >? 0 then slice_from ts x else x in
   if te >? 0 then slice_until_last te x1 else x1)
  = trimmed ts te x.
Proof.
  rewrite <- trims_closed_form. cbv zeta.
  set (x1 := if ts >? 0 then slice_from ts x else x).
  destruct (te >? 0); [|reflexivity].
  destruct (Z.ltb_spec te (Text.len x1)) as [H|H]; [reflexivity|].
  unfold slice_until_last. replace (Z.to_nat (Text.len x1 - te)) with 0%nat by lia.
  reflexivity.
Qed.

Lemma trimmed_twice (ts te : Z) (x : ustring) :
  trimmed ts te (trimmed ts te x) = trimmed (2 * ts) (2 * te) x.
Proof.
  rewrite (trimmed_nat ts te (trimmed ts te x)), (trimmed_nat (2 * ts) (2 * te) x).
  rewrite (trimmed_nat ts te x).
  rewrite length_firstn, length_skipn, skipn_firstn_comm, skipn_skipn, firstn_firstn.
  replace (Z.to_nat (2 * ts)) with (Z.to_nat ts + Z.to_nat ts)%nat by lia.
  f_equal. lia.
Qed.

(** X16. With trimming enabled, the preview of processed records trims
    twice: each record is cut by the trims and then given to
    [normalize_value] with the same trims, so what is shown is
    [normalize_value] of the record with [2 * trim_start] and
    [2 * trim_end], not the key that the comparison uses (which has the
    trims applied once). *)
Theorem preview_trims_twice :
  forall (isdigit : N -> bool) (float_repr : bool -> positive -> Z -> ustring)
         (data : DataFrame) (selected_column : label) (trim : trim_options),
    enable trim = true ->
    sample_normalized isdigit float_repr data selected_column trim
    = option_map
        (fun series =>
           map (fun x => normalize_value isdigit float_repr (VStr x)
                                         (2 * trim_start trim) (2 * trim_end trim))
               (firstn 5 (dropna_astype_str float_repr series)))
        (column data selected_column).
Proof.
  intros isdigit float_repr data c trim He. unfold sample_normalized.
  destruct (column data c) as [series|]; [|reflexivity].
  rewrite He. cbn [option_map]. f_equal. rewrite !map_map.
  apply map_ext. intros x.
  pose proof (preview_trim_closed_form (trim_start trim) (trim_end trim) x) as Hp.
  cbv zeta in Hp. rewrite Hp.
  destruct (normalize_value_trims isdigit float_repr (VStr (trimmed (trim_start trim)
              (trim_end trim) x)) (trim_start trim) (trim_end trim) eq_refl eq_refl)
    as [E1 _].
  destruct (normalize_value_trims isdigit float_repr (VStr x) (2 * trim_start trim)
              (2 * trim_end trim) eq_refl eq_refl) as [E2 _].
  rewrite E1, E2. simpl py_str. now rewrite trimmed_twice.
Qed.

Lemma preview_trims_twice_witness :
  sample_normalized Reference.isdigit Reference.float_repr
    (keys_table object [VStr (u "AB-12-34")]) (u "key") (mkTrim true 3 1)
  = Some [[]]
  /\ normalize_value Reference.isdigit Reference.float_repr
       (VStr (u "AB-12-34")) 3 1 = u "123"
  /\ sample_normalized Reference.isdigit Reference.float_repr
       (keys_table object [VStr (u "AB-12-34")]) (u "key") (mkTrim true 3 1)
     = option_map
         (fun series =>
            map (fun x => normalize_value Reference.isdigit Reference.float_repr
                            (VStr x) (2 * trim_start (mkTrim true 3 1))
                            (2 * trim_end (mkTrim true 3 1)))
                (firstn 5 (dropna_astype_str Reference.float_repr series)))
         (column (keys_table object [VStr (u "AB-12-34")]) (u "key")).
Proof.
  split; [vm_compute; reflexivity|].
  split; [vm_compute; reflexivity|].
  exact (preview_trims_twice Reference.isdigit Reference.float_repr
           (keys_table object [VStr (u "AB-12-34")]) (u "key") (mkTrim true 3 1)
           eq_refl).
Defined.

(** ** The length statistics *)

Lemma fold_min_spec (l : list Z) :
  forall x,
    In (fold_left Z.min l x) (x :: l)
    /\ forall y, In y (x :: l) -> fold_left Z.min l x <= y.
Proof.
  induction l as [|a l IH]; intros x; simpl.
  - split; [now left|]. intros y [<-|[]]. lia.
  - destruct (IH (Z.min x a)) as [Hin Hle]. split.
    + destruct Hin as [E|Hin]; [|now right; right].
      rewrite <- E. destruct (Z.min_spec x a) as [[_ ->]|[_ ->]]; auto.
    + intros y Hy.
      assert (Hm : fold_left Z.min l (Z.min x a) <= Z.min x a)
        by (apply Hle; now left).
      destruct Hy as [<-|[<-|Hy]]; [lia | lia |]. apply Hle. now right.
Qed.

Lemma fold_max_spec (l : list Z) :
  forall x,
    In (fold_left Z.max l x) (x :: l)
    /\ forall y, In y (x :: l) -> y <= fold_left Z.max l x.
Proof.
  induction l as [|a l IH]; intros x; simpl.
  - split; [now left|]. intros y [<-|[]]. lia.
  - destruct (IH (Z.max x a)) as [Hin Hle]. split.
    + destruct Hin as [E|Hin]; [|now right; right].
      rewrite <- E. destruct (Z.max_spec x a) as [[_ ->]|[_ ->]]; auto.
    + intros y Hy.
      assert (Hm : Z.max x a <= fold_left Z.max l (Z.max x a))
        by (apply Hle; now left).
      destruct Hy as [<-|[<-|Hy]]; [lia | lia |]. apply Hle. now right.
Qed.

Lemma dropna_all_missing (series : list value) :
  forallb isna series = true -> filter (fun v => negb (isna v)) series = [].
Proof.
  induction series as [|v l IH]; simpl; [reflexivity|].
  intros Hall. apply andb_true_iff in Hall. destruct Hall as [-> Hl]. simpl. auto.
Qed.

(** X17. The [min] and [max] entries of [calculate_length_stats] bound the
    length of the text of every record that is not missing, and each is the
    length of one of these records; they are not negative, [min] is at most
    [max], and both are 0 when the series is empty or has missing values
    only. *)
Theorem calculate_length_stats_min_max :
  forall (float_repr : bool -> positive -> Z -> ustring) (series : list value),
    0 <= calculate_length_stats_min float_repr series
      <= calculate_length_stats_max float_repr series
    /\ (forall v, In v series -> isna v = false ->
                  calculate_length_stats_min float_repr series
                  <= Text.len (py_str float_repr v)
                  <= calculate_length_stats_max float_repr series)
    /\ (lengths float_repr series <> [] ->
        In (calculate_length_stats_min float_repr series) (lengths float_repr series)
        /\ In (calculate_length_stats_max float_repr series)
              (lengths float_repr series))
    /\ (forallb isna series = true ->
        calculate_length_stats_min float_repr series = 0
        /\ calculate_length_stats_max float_repr series = 0).
Proof.
  intros float_repr series.
  unfold calculate_length_stats_min, calculate_length_stats_max.
  assert (Hpos : forall y, In y (lengths float_repr series) -> 0 <= y).
  { intros y Hy. unfold lengths in Hy. apply in_map_iff in Hy.
    destruct Hy as (s & <- & _). unfold Text.len. lia. }
  assert (Hmem : forall v, In v series -> isna v = false ->
                           In (Text.len (py_str float_repr v))
                              (lengths float_repr series)).
  { intros v Hv Hna. unfold lengths, dropna_astype_str.
    apply in_map, in_map, filter_In. now rewrite Hna. }
  assert (Hnil : forallb isna series = true -> lengths float_repr series = []).
  { intros Hall. unfold lengths, dropna_astype_str.
    now rewrite (dropna_all_missing series Hall). }
  destruct (lengths float_repr series) as [|x l] eqn:E.
  - split; [lia|]. split; [intros v Hv Hna; destruct (Hmem v Hv Hna)|].
    split; [intros H; now destruct H | intros _; split; reflexivity].
  - destruct (fold_min_spec l x) as [Imin Lmin], (fold_max_spec l x) as [Imax Lmax].
    split; [|split; [|split]].
    + split; [now apply Hpos | apply Lmax, Imin].
    + intros v Hv Hna. split; [apply Lmin | apply Lmax]; now apply Hmem.
    + auto.
    + intros Hall. specialize (Hnil Hall). discriminate.
Qed.

(** ** Which rows survive the deduplication of the matches *)

Lemma find_app {A : Type} (p : A -> bool) (a b : list A) :
  find p (a ++ b) = match find p a with Some x => Some x | None => find p b end.
Proof.
  induction a as [|x a IH]; simpl; [reflexivity|]. now destruct (p x).
Qed.

Lemma find_join_row (k : hkey) (l : list value) (right : list (list value)) :
  l <> [] ->
  find (has_key 0 k)
       (map (fun r => l ++ remove_nth 0 r)
            (filter (fun r => same_key (cell 0 l) (cell 0 r)) right))
  = if has_key 0 k l
    then option_map (fun r => l ++ remove_nth 0 r) (find (has_key 0 k) right)
    else None.
Proof.
  intros Hl. induction right as [|r right IH]; cbn [filter map find].
  - now destruct (has_key 0 k l).
  - unfold same_key at 1. fold (key_at 0 l). fold (key_at 0 r).
    destruct (hkey_eqb (key_at 0 l) (key_at 0 r)) eqn:E; cbn [map find].
    + unfold has_key at 1. rewrite (key_at_0_app l _ Hl). fold (has_key 0 k l).
      destruct (has_key 0 k l) eqn:Ek.
      * assert (Er : has_key 0 k r = true).
        { unfold has_key in *. apply hkey_eqb_eq in E, Ek.
          apply hkey_eqb_eq. congruence. }
        now rewrite Er.
      * exact IH.
    + rewrite IH. destruct (has_key 0 k l) eqn:Ek; [|reflexivity].
      assert (Er : has_key 0 k r = false).
      { unfold has_key in *. apply hkey_eqb_eq in Ek. apply hkey_eqb_neq in E.
        apply hkey_eqb_neq. congruence. }
      now rewrite Er.
Qed.

Lemma find_join (k : hkey) (left right : list (list value)) :
  Forall (fun l => l <> []) left ->
  find (has_key 0 k)
       (flat_map (fun l => map (fun r => l ++ remove_nth 0 r)
                               (filter (fun r => same_key (cell 0 l) (cell 0 r)) right))
                 left)
  = match find (has_key 0 k) left with
    | Some l => option_map (fun r => l ++ remove_nth 0 r) (find (has_key 0 k) right)
    | None => None
    end.
Proof.
  induction 1 as [|l left Hl _ IH]; cbn [flat_map find]; [reflexivity|].
  rewrite find_app, (find_join_row k l right Hl), IH.
  destruct (has_key 0 k l); [|reflexivity].
  destruct (find (has_key 0 k) right); simpl; [reflexivity|].
  now destruct (find (has_key 0 k) left).
Qed.

(** X18. For a key with several matching rows, the row kept in the
    deduplicated matches is made of first occurrences: it is the first row
    of the second source's projection with that key, followed by the
    additional columns of the first row of the first source's projection
    with that key. *)
Theorem unique_match_is_first_pair :
  forall isdigit nfkd float_repr data1 c1 e1 t1 data2 c2 e2 t2 res,
    compare isdigit nfkd float_repr data1 c1 e1 t1 data2 c2 e2 t2 = Some res ->
    exists m1 m2 um,
      merge_data isdigit float_repr dataset1 data1 c1 e1 t1 = Some m1
      /\ merge_data isdigit float_repr dataset2 data2 c2 e2 t2 = Some m2
      /\ get_unique_records (matches res) normalized_key = Some um
      /\ forall r,
          In r (rows um) ->
          exists l r1,
            find (has_key 0 (key_at 0 r)) (rows m2) = Some l
            /\ find (has_key 0 (key_at 0 r)) (rows m1) = Some r1
            /\ r = l ++ remove_nth 0 r1.
Proof.
  intros isdigit nfkd float_repr data1 c1 e1 t1 data2 c2 e2 t2 res H.
  pose proof (compare_rows _ _ _ _ _ _ _ _ _ _ _ _ H) as Hr.
  destruct Hr as (m1 & m2 & u2 & H1 & H2 & _ & _ & _ & Rm & _).
  apply compare_inv in H.
  destruct H as (m1' & m2' & um & unm & u2' & H1' & H2' & Hm & _ & Hum & _ & _
                 & Eum & _).
  assert (m1' = m1) by congruence. assert (m2' = m2) by congruence. subst m1' m2'.
  pose proof (merge_data_shape _ _ _ _ _ _ _ _ H1) as P1.
  pose proof (merge_data_shape _ _ _ _ _ _ _ _ H2) as P2.
  destruct (merge_projections _ _ _ _ _ P1 P2 Hm) as [Kmt _].
  exists m1, m2, um. repeat split; try assumption.
  intros r Hin.
  unfold get_unique_records, drop_duplicates in Hum. rewrite Kmt in Hum.
  injection Hum as <-. simpl in Hin.
  apply first_wins_first in Hin. destruct Hin as [_ Hf].
  rewrite Rm in Hf.
  rewrite (find_join _ _ _ (projection_rows_nonempty _ _ _ P2)) in Hf.
  destruct (find (has_key 0 (key_at 0 r)) (rows m2)) as [l|]; [|discriminate].
  destruct (find (has_key 0 (key_at 0 r)) (rows m1)) as [r1|]; [|discriminate].
  simpl in Hf. injection Hf as <-. eauto.
Qed.

Lemma unique_match_is_first_pair_witness :
  exists res,
    example_compare = Some res
    /\ exists m1 m2 um,
        merge_data Reference.isdigit Reference.float_repr dataset1
                   example_data1 (u "id") [u "name"] no_trim = Some m1
        /\ merge_data Reference.isdigit Reference.float_repr dataset2
                      example_data2 (u "k") [u "v"] no_trim = Some m2
        /\ get_unique_records (matches res) normalized_key = Some um
        /\ forall r,
            In r (rows um) ->
            exists l r1,
              find (has_key 0 (key_at 0 r)) (rows m2) = Some l
              /\ find (has_key 0 (key_at 0 r)) (rows m1) = Some r1
              /\ r = l ++ remove_nth 0 r1.
Proof.
  eexists. split; [vm_compute; reflexivity|].
  apply (unique_match_is_first_pair
           Reference.isdigit Reference.nfkd Reference.float_repr
           example_data1 (u "id") [u "name"] no_trim
           example_data2 (u "k") [u "v"] no_trim).
  vm_compute. reflexivity.
Defined.
